(** * PubMed industry-affiliation filter: affiliation classifier and
      article-record extraction pipeline of [pubmed_industry_filter.py].

    The embedding follows the Python source function by function:
    - [Py]  : the few Python builtins the pipeline relies on
              ([in] on strings, [str.join], truthiness, f-string
              rendering of [None]);
    - [Re]  : a backtracking matcher for the fragment of [re] used by the
              e-mail pattern of [parse_author];
    - [ET]  : [xml.etree.ElementTree] elements with [find], [findall],
              [get] and [itertext];
    - the pipeline itself: [parse_author], [is_industry_affiliation],
      [get_article_details] and the batch loop of [main].

    A Python [str] is represented by the [string] of its UTF-8 bytes.
    Substring tests ([in]) and the e-mail pattern (whose character classes
    are all ASCII) give the same answers on UTF-8 bytes as on code points,
    because UTF-8 is self-synchronising. *)

From Stdlib Require Import Ascii String.
From stdpp Require Import gmap strings list pretty.

Set Warnings "-register-all,-clear-no-such-hyp".
Local Open Scope string_scope.
Local Open Scope list_scope.

(** ** Python builtins *)

Module Py.

(** [needle in hay] for two strings. *)
Fixpoint startswith (needle hay : string) : bool :=
  match needle, hay with
  | EmptyString, _ => true
  | String a n', String b h' => if Ascii.eqb a b then startswith n' h' else false
  | String _ _, EmptyString => false
  end.

Fixpoint str_in (needle hay : string) : bool :=
  startswith needle hay ||
  match hay with
  | EmptyString => false
  | String _ h' => str_in needle h'
  end.

(** [sep.join(parts)]. *)
Fixpoint join (sep : string) (parts : list string) : string :=
  match parts with
  | [] => ""
  | [p] => p
  | p :: rest => p +:+ sep +:+ join sep rest
  end.

(** Truthiness of an [Optional[str]]: [None] and [''] are falsy. *)
Definition truthy (o : option string) : bool :=
  match o with
  | Some EmptyString => false
  | Some (String _ _) => true
  | None => false
  end.

(** [o or ''] for an [Optional[str]]. *)
Definition or_empty (o : option string) : string :=
  match o with
  | Some s => s
  | None => ""
  end.

(** How an f-string renders an [Optional[str]]: [None] prints as "None". *)
Definition format (o : option string) : string :=
  match o with
  | Some s => s
  | None => "None"
  end.

(** A string given by its bytes, for keywords outside ASCII. *)
Definition bytes (l : list N) : string :=
  fold_right (fun n s => String (ascii_of_N n) s) "" l.

(** [str.lower] restricted to ASCII text: the letters A-Z are mapped to
    a-z and every other byte is kept.  On ASCII-only strings this is
    exactly Python's [lower]; it is used to evaluate the pipeline on
    concrete records.  The pipeline below is written against an arbitrary
    lowering function, so the general results do not depend on it. *)
Definition ascii_lower_char (c : ascii) : ascii :=
  let n := N_of_ascii c in
  if (65 <=? n)%N && (n <=? 90)%N then ascii_of_N (n + 32) else c.

Fixpoint ascii_lower (s : string) : string :=
  match s with
  | EmptyString => EmptyString
  | String c s' => String (ascii_lower_char c) (ascii_lower s')
  end.

End Py.

(** ** The fragment of [re] used by the e-mail pattern *)

Module Re.

(** A character class is a predicate on characters. *)
Definition cls := ascii -> bool.

Definition range (lo hi : ascii) : cls :=
  fun c => (N_of_ascii lo <=? N_of_ascii c)%N && (N_of_ascii c <=? N_of_ascii hi)%N.

Definition lit (a : ascii) : cls := fun c => Ascii.eqb a c.

Definition alt (p q : cls) : cls := fun c => p c || q c.

(** Pattern atoms: one character of a class, or a greedy repetition
    [c{n,}] of a class ([c+] is [AtLeast 1 c]). *)
Inductive atom :=
  | One (c : cls)
  | AtLeast (n : nat) (c : cls).

(** Greedy repetition with backtracking: having consumed [taken]
    characters, first try to consume one more; when the rest of the
    pattern [k] fails after that, give the character back and try [k]
    here, provided at least [n] characters were consumed.  The result is
    the matched text. *)
Fixpoint repeat_greedy (c : cls) (n : nat) (k : string -> option string)
    (taken : nat) (s : string) : option string :=
  let stop := if (n <=? taken)%nat then k s else None in
  match s with
  | String x s' =>
      if c x then
        match repeat_greedy c n k (S taken) s' with
        | Some m => Some (String x m)
        | None => stop
        end
      else stop
  | EmptyString => stop
  end.

(** Match the pattern at the start of [s]. *)
Fixpoint match_here (p : list atom) (s : string) : option string :=
  match p with
  | [] => Some ""
  | One c :: p' =>
      match s with
      | String x s' => if c x then String x <$> match_here p' s' else None
      | EmptyString => None
      end
  | AtLeast n c :: p' => repeat_greedy c n (match_here p') 0 s
  end.

(** [re.search(p, s)]: the match at the leftmost position that has one;
    [Some m] stands for a match object with [group(0) = m]. *)
Fixpoint search (p : list atom) (s : string) : option string :=
  match match_here p s with
  | Some m => Some m
  | None =>
      match s with
      | String _ s' => search p s'
      | EmptyString => None
      end
  end.

End Re.

(** ** ElementTree elements *)

Module ET.

Inductive Element : Type :=
  Elem (tag : string) (attrib : gmap string string) (text : option string)
       (children : list Element) (tail : option string).

Definition tag (e : Element) : string := let (t, _, _, _, _) := e in t.
Definition attrib (e : Element) : gmap string string := let (_, a, _, _, _) := e in a.
Definition text (e : Element) : option string := let (_, _, t, _, _) := e in t.
Definition children (e : Element) : list Element := let (_, _, _, c, _) := e in c.
Definition tail (e : Element) : option string := let (_, _, _, _, t) := e in t.

(** [e.get(key, dflt)]. *)
Definition get (e : Element) (key dflt : string) : string :=
  default dflt (attrib e !! key).

Definition has_tag (t : string) (e : Element) : bool := String.eqb (tag e) t.

(** [e.find(t)] for a plain tag: the first direct child with that tag. *)
Definition find (t : string) (e : Element) : option Element :=
  List.find (has_tag t) (children e).

(** [e.iter()]: the element and all its descendants in document order. *)
Fixpoint iter (e : Element) : list Element :=
  match e with
  | Elem _ _ _ cs _ => e :: flat_map iter cs
  end.

(** The descendants of [e], in document order, without [e] itself. *)
Definition descendants (e : Element) : list Element :=
  flat_map iter (children e).

(** [e.findall('.//t')]. *)
Definition findall_desc (t : string) (e : Element) : list Element :=
  List.filter (has_tag t) (descendants e).

(** [e.find('.//t')]. *)
Definition find_desc (t : string) (e : Element) : option Element :=
  List.find (has_tag t) (descendants e).

(** [e.findall('.//t1/t2')]: for every descendant tagged [t1], in document
    order, its direct children tagged [t2]. *)
Definition findall_desc_child (t1 t2 : string) (e : Element) : list Element :=
  flat_map (fun d => List.filter (has_tag t2) (children d)) (findall_desc t1 e).

(** [e.itertext()]: the non-empty text of [e], then for every child its
    own [itertext] followed by its non-empty tail. *)
Definition text_item (o : option string) : list string :=
  if Py.truthy o then [Py.or_empty o] else [].

Fixpoint itertext (e : Element) : list string :=
  match e with
  | Elem _ _ t cs _ =>
      text_item t ++ flat_map (fun c => itertext c ++ text_item (tail c)) cs
  end.

End ET.

(** ** Exceptions *)

(** The exceptions the pipeline can meet: [AttributeError] from reading
    [.text] of a missing element, and [TransportError] for anything raised
    by [make_api_request] or [ET.fromstring] (HTTP failure, bad XML). *)
Inductive exn := AttributeError | TransportError.

Inductive result (A : Type) : Type :=
  | Ok (a : A)
  | Raise (e : exn).
Arguments Ok {A} a.
Arguments Raise {A} e.

#[export] Instance result_ret : MRet result := fun _ a => Ok a.
#[export] Instance result_bind : MBind result := fun _ _ f m =>
  match m with
  | Ok a => f a
  | Raise e => Raise e
  end.

(** What the fetch of one article id produced: an exception, or the root
    of the parsed XML document. *)
Inductive response :=
  | Failed
  | Document (root : ET.Element).

(** ** Module-level tables of the script *)

Definition INDUSTRY_KEYWORDS : list string :=
  [ "pharma"; "pharmaceutical"; "biotech"; "biotechnology";
    "inc"; "ltd"; "llc"; "plc"; "corporation"; "company";
    "gmbh"; "ag"; "sas"; "sarl"; "labs"; "research"; "healthcare";
    "pfizer"; "novartis"; "roche"; "merck"; "johnson & johnson";
    "gsk"; "glaxosmithkline"; "sanofi"; "astrazeneca"; "eli lilly" ].

(** The last four entries are the non-English variants; the first and the
    last of them are not ASCII and are given by their UTF-8 bytes
    (U+00E9; U+682A U+5F0F U+4F1A U+793E). *)
Definition ACADEMIC_KEYWORDS : list string :=
  [ "university"; "college"; "institute"; "academy"; "school";
    "hospital"; "clinic"; "medical center"; "research center";
    "universit" +:+ Py.bytes [195; 169]%N; "universita"; "universidad";
    Py.bytes [230; 160; 170; 229; 188; 143; 228; 188; 154; 231; 164; 190]%N ].

(** [[a-zA-Z0-9._%+-]+@[a-zA-Z0-9.-]+\.[a-zA-Z]{2,}] *)
Definition alpha : Re.cls := Re.alt (Re.range "a" "z") (Re.range "A" "Z").
Definition alnum : Re.cls := Re.alt alpha (Re.range "0" "9").
Definition local_part : Re.cls :=
  Re.alt alnum (Re.alt (Re.lit ".") (Re.alt (Re.lit "_") (Re.alt (Re.lit "%")
    (Re.alt (Re.lit "+") (Re.lit "-"))))).
Definition domain_part : Re.cls :=
  Re.alt alnum (Re.alt (Re.lit ".") (Re.lit "-")).

Definition EMAIL_PATTERN : list Re.atom :=
  [ Re.AtLeast 1 local_part; Re.One (Re.lit "@");
    Re.AtLeast 1 domain_part; Re.One (Re.lit ".");
    Re.AtLeast 2 alpha ].

(** ** Data model *)

(** The dict returned by [parse_author]. *)
Record Author := mkAuthor {
  name : string;
  affiliation : option string;
  email : option string;
  is_corresponding : bool
}.

(** The dict returned by [get_article_details]. *)
Record Article := mkArticle {
  pubmed_id : string;
  title : string;
  publication_date : string;
  doi : option string;
  all_authors : list Author;
  industry_authors : list Author;
  corresponding_emails : list string
}.

#[export] Instance Author_eq_dec : EqDecision Author.
Proof. solve_decision. Defined.

(** ** The pipeline *)

Section Pipeline.

(** [str.lower].  Python lower-cases with the Unicode case tables; the
    pipeline only ever tests the lowered text for keywords, so it is
    embedded over an arbitrary lowering function and every result of this
    section holds for Python's. *)
Variable lower : string -> string.

(** [for keyword in keywords: if keyword in s: return ...] -- does the scan
    reach a keyword that occurs in [s]? *)
Fixpoint any_keyword_in (keywords : list string) (s : string) : bool :=
  match keywords with
  | [] => false
  | keyword :: rest => if Py.str_in keyword s then true else any_keyword_in rest s
  end.

Definition is_industry_affiliation (affiliation : option string) : bool :=
  if negb (Py.truthy affiliation) then false
  else
    let affil_lower := lower (Py.or_empty affiliation) in
    if any_keyword_in ACADEMIC_KEYWORDS affil_lower then false
    else if any_keyword_in INDUSTRY_KEYWORDS affil_lower then true
    else false.

(** [affiliation_info.find('Affiliation').text if affiliation_info is not
    None else ""]: reading [.text] of the [None] that [find] returns for a
    missing child raises [AttributeError]. *)
Definition read_affiliation (author_elem : ET.Element) : result (option string) :=
  match ET.find "AffiliationInfo" author_elem with
  | Some affiliation_info =>
      match ET.find "Affiliation" affiliation_info with
      | Some a => Ok (ET.text a)
      | None => Raise AttributeError
      end
  | None => Ok (Some "")
  end.

Definition parse_author (author_elem : ET.Element) : result (option Author) :=
  match ET.find "LastName" author_elem, ET.find "ForeName" author_elem with
  | Some last_name, Some fore_name =>
      affiliation ← read_affiliation author_elem;
      let is_corresponding :=
        String.eqb (ET.get author_elem "ValidYN" "N") "Y"
        || Py.str_in "corresponding" (lower (Py.or_empty affiliation)) in
      let email :=
        if Py.truthy affiliation
        then Re.search EMAIL_PATTERN (Py.or_empty affiliation)
        else None in
      Ok (Some {| name := Py.format (ET.text fore_name) +:+ " " +:+ Py.format (ET.text last_name);
                  affiliation := affiliation;
                  email := email;
                  is_corresponding := is_corresponding |})
  | _, _ => Ok None
  end.

(** [elem is not None and elem.text] *)
Definition has_text (elem : option ET.Element) : bool :=
  match elem with
  | Some e => Py.truthy (ET.text e)
  | None => false
  end.

Definition text_of (elem : option ET.Element) : string :=
  match elem with
  | Some e => Py.or_empty (ET.text e)
  | None => ""
  end.

(** The [date_parts] list built from a present [PubDate] element. *)
Definition date_parts (pub_date : ET.Element) : list string :=
  let year := ET.find "Year" pub_date in
  let month := ET.find "Month" pub_date in
  let day := ET.find "Day" pub_date in
  if has_text year then
    text_of year ::
      (if has_text month then
         text_of month :: (if has_text day then [text_of day] else [])
       else [])
  else [].

(** The value of [pub_date_str] after the publication-date block. *)
Definition pub_date_str (article : ET.Element) : string :=
  match ET.find_desc "PubDate" article with
  | Some pub_date =>
      match date_parts pub_date with
      | [] => "Date not available"
      | parts => Py.join "-" parts
      end
  | None => ""
  end.

(** The three accumulators of the author loop. *)
Record Acc := mkAcc {
  acc_authors : list Author;
  acc_industry : list Author;
  acc_emails : gset string
}.

Definition acc_init : Acc := mkAcc [] [] ∅.

(** One iteration of [for author_elem in article.findall('.//Author')]. *)
Definition author_step (acc : Acc) (author_elem : ET.Element) : result Acc :=
  author ← parse_author author_elem;
  match author with
  | Some author =>
      Ok {| acc_authors := acc_authors acc ++ [author];
            acc_emails :=
              if is_corresponding author && Py.truthy (email author)
              then acc_emails acc ∪ {[ Py.or_empty (email author) ]}
              else acc_emails acc;
            acc_industry :=
              if is_industry_affiliation (affiliation author)
              then acc_industry acc ++ [author]
              else acc_industry acc |}
  | None => Ok acc
  end.

Fixpoint author_loop (acc : Acc) (elems : list ET.Element) : result Acc :=
  match elems with
  | [] => Ok acc
  | author_elem :: rest =>
      acc' ← author_step acc author_elem;
      author_loop acc' rest
  end.

(** The DOI scan: the text of the first [ArticleId] whose [IdType] is
    [doi], the initial value otherwise. *)
Fixpoint doi_scan (doi : option string) (ids : list ET.Element) : option string :=
  match ids with
  | [] => doi
  | article_id_elem :: rest =>
      if bool_decide (ET.attrib article_id_elem !! "IdType" = Some "doi")
      then ET.text article_id_elem
      else doi_scan doi rest
  end.

Definition article_title (article_data : ET.Element) : string :=
  match ET.find_desc "ArticleTitle" article_data with
  | Some title_elem => Py.join " " (ET.itertext title_elem)
  | None => "No title available"
  end.

(** The body of the [try] block of [get_article_details].  The debug
    listing of affiliations only prints and is left out.  Python does not
    fix the order in which [list(corresponding_emails)] enumerates the set;
    [elements] is one enumeration, and no result below depends on the
    order. *)
Definition get_article_details_try (article_id : string) (resp : response)
  : result (option Article) :=
  match resp with
  | Failed => Raise TransportError
  | Document root =>
      match ET.find_desc "PubmedArticle" root with
      | None => Ok None
      | Some article =>
          match ET.find_desc "Article" article with
          | None => Ok None
          | Some article_data =>
              match ET.find_desc "MedlineCitation" article with
              | None => Ok None
              | Some medline =>
                  let title := article_title article_data in
                  let pub_date_str := pub_date_str article in
                  acc ← author_loop acc_init (ET.findall_desc "Author" article);
                  match acc_industry acc with
                  | [] => Ok None
                  | _ :: _ =>
                      let doi := doi_scan (Some "")
                                   (ET.findall_desc_child "ArticleIdList" "ArticleId" article) in
                      Ok (Some {| pubmed_id := article_id;
                                  title := title;
                                  publication_date := pub_date_str;
                                  doi := doi;
                                  all_authors := acc_authors acc;
                                  industry_authors := acc_industry acc;
                                  corresponding_emails := elements (acc_emails acc) |})
                  end
              end
          end
      end
  end.

(** [get_article_details]: [except Exception] turns every exception of
    the body into [None]. *)
Definition get_article_details (article_id : string) (resp : response)
  : result (option Article) :=
  match get_article_details_try article_id resp with
  | Ok r => Ok r
  | Raise _ => Ok None
  end.

(** The loop of [main] over the article ids; each id comes with what its
    fetch produced.  [if paper:] holds for every returned dict (it is never
    empty); the [except] branch only prints. *)
Fixpoint main_loop (papers : list Article) (batch : list (string * response))
  : list Article :=
  match batch with
  | [] => papers
  | (article_id, resp) :: rest =>
      match get_article_details article_id resp with
      | Ok (Some paper) => main_loop (papers ++ [paper]) rest
      | Ok None => main_loop papers rest
      | Raise _ => main_loop papers rest
      end
  end.

End Pipeline.

(** ** Sample records used to evaluate the pipeline *)

Definition leaf (t x : string) : ET.Element := ET.Elem t ∅ (Some x) [] None.
Definition node (t : string) (cs : list ET.Element) : ET.Element := ET.Elem t ∅ None cs None.

(** An [Author] element with both names and, when given, one
    [AffiliationInfo/Affiliation] text. *)
Definition raw_author (attrs : gmap string string) (fore last : string)
    (affil : option string) : ET.Element :=
  ET.Elem "Author" attrs None
    ([leaf "LastName" last; leaf "ForeName" fore] ++
     match affil with
     | Some a => [node "AffiliationInfo" [leaf "Affiliation" a]]
     | None => []
     end) None.

(** A document with the required blocks, the given children of the
    [Article] block and the given authors. *)
Definition raw_document (article_children authors : list ET.Element) : ET.Element :=
  node "PubmedArticleSet"
    [node "PubmedArticle"
       [node "MedlineCitation"
          [node "Article" (article_children ++ [node "AuthorList" authors])]]].

Definition jane : ET.Element :=
  raw_author ∅ "Jane" "Doe" (Some "Pfizer Inc, New York. jane.doe@pfizer.com").
Definition rick : ET.Element :=
  raw_author {[ "ValidYN" := "Y" ]} "Rick" "Roe"
    (Some "Harvard University, Boston. rick@harvard.edu").

(** ** The classifier *)

(** The classification procedure in the words of the design document:
    empty or absent text is academic; otherwise the lower-cased text is
    academic when an academic keyword occurs in it, else industry when an
    industry keyword occurs in it, else academic. *)
Inductive affiliation_class := Industry | Academic.

Definition classify (lower : string -> string) (affiliation_text : option string)
  : affiliation_class :=
  match affiliation_text with
  | None => Academic
  | Some "" => Academic
  | Some t =>
      let t := lower t in
      if existsb (fun k => Py.str_in k t) ACADEMIC_KEYWORDS then Academic
      else if existsb (fun k => Py.str_in k t) INDUSTRY_KEYWORDS then Industry
      else Academic
  end.

(** Some keyword of the table occurs in [s] as a substring. *)
Definition occurs_in (keywords : list string) (s : string) : Prop :=
  ∃ k, k ∈ keywords ∧ Py.str_in k s = true.

(** Both name fields are present in a raw author record. *)
Definition has_names (author_elem : ET.Element) : bool :=
  match ET.find "LastName" author_elem, ET.find "ForeName" author_elem with
  | Some _, Some _ => true
  | _, _ => false
  end.

(** A record without fore-name, and one whose [AffiliationInfo] block has
    no [Affiliation] child. *)
Definition nameless : ET.Element :=
  ET.Elem "Author" ∅ None
    [leaf "LastName" "Solo";
     node "AffiliationInfo" [leaf "Affiliation" "Novartis AG, Basel"]] None.

Definition no_affiliation_text : ET.Element :=
  ET.Elem "Author" ∅ None
    [leaf "LastName" "Poe"; leaf "ForeName" "Pat"; node "AffiliationInfo" []] None.

(** A [Journal] block carrying a [PubDate] with the given fields. *)
Definition journal (date_fields : list ET.Element) : ET.Element :=
  node "Journal" [node "JournalIssue" [node "PubDate" date_fields]].

(** A second corresponding author, with the e-mail of [rick]. *)
Definition rita : ET.Element :=
  raw_author ∅ "Rita" "Roe"
    (Some "Corresponding author. Boston Children's Hospital, rick@harvard.edu").

Definition doc_industry_academic : ET.Element := raw_document [] [jane; rick].
Definition doc_shared_email : ET.Element := raw_document [] [jane; rick; rita].
Definition doc_no_affiliation_text : ET.Element :=
  raw_document [] [jane; no_affiliation_text].
Definition doc_nameless : ET.Element := raw_document [] [jane; nameless; rick].
Definition doc_year_only : ET.Element :=
  raw_document [journal [leaf "Year" "2021"]] [jane].
Definition doc_full_date : ET.Element :=
  raw_document [journal [leaf "Year" "2021"; leaf "Month" "06"; leaf "Day" "15"]] [jane].
Definition doc_no_year : ET.Element :=
  raw_document [journal [leaf "MedlineDate" "2021 Spring"]] [jane].
Definition doc_no_pub_date : ET.Element := raw_document [] [jane].

(** A document lacks one of the blocks [get_article_details] requires. *)
Definition missing_block (root : ET.Element) : Prop :=
  match ET.find_desc "PubmedArticle" root with
  | None => True
  | Some article =>
      ET.find_desc "Article" article = None ∨
      ET.find_desc "MedlineCitation" article = None
  end.

(** What one entry of a batch contributes to [papers]. *)
Definition paper_of (lower : string -> string) (entry : string * response)
  : option Article :=
  match get_article_details lower entry.1 entry.2 with
  | Ok r => r
  | Raise _ => None
  end.

(** A batch with a failed fetch, a record that raises, a record without
    the required blocks, and one article fetched twice. *)
Definition sample_batch : list (string * response) :=
  [ ("11", Document doc_industry_academic);
    ("12", Failed);
    ("13", Document doc_no_affiliation_text);
    ("14", Document (node "PubmedArticleSet" []));
    ("15", Document doc_full_date);
    ("11", Document doc_industry_academic) ].

(** ** What a pattern matches, declaratively *)

(** Every character of [s] is in the class [c]. *)
Fixpoint all_in (c : Re.cls) (s : string) : bool :=
  match s with
  | EmptyString => true
  | String x s' => c x && all_in c s'
  end.

(** [shape p m]: the text [m] is the pattern [p] read left to right, each
    [One c] being one character of [c] and each [AtLeast n c] a run of at
    least [n] characters of [c]. *)
Inductive shape : list Re.atom → string → Prop :=
  | shape_nil : shape [] ""
  | shape_one c p x m :
      c x = true → shape p m → shape (Re.One c :: p) (String x m)
  | shape_many n c p r m :
      all_in c r = true → (n ≤ String.length r)%nat → shape p m →
      shape (Re.AtLeast n c :: p) (r +:+ m).

(** An e-mail address as the pattern of [parse_author] sees it:
    [local@domain.tld]. *)
Definition email_shape (m : string) : Prop :=
  ∃ loc dom tld,
    m = loc +:+ "@" +:+ dom +:+ "." +:+ tld ∧
    loc ≠ "" ∧ all_in local_part loc = true ∧
    dom ≠ "" ∧ all_in domain_part dom = true ∧
    (2 ≤ String.length tld)%nat ∧ all_in alpha tld = true.

(** ** Definitions for the further properties *)

(** [article_id_elem.get('IdType') == 'doi'] *)
Definition is_doi (article_id_elem : ET.Element) : bool :=
  bool_decide (ET.attrib article_id_elem !! "IdType" = Some "doi").

(** An [ArticleId] element of the given type. *)
Definition article_id (id_type value : string) : ET.Element :=
  ET.Elem "ArticleId" {[ "IdType" := id_type ]} (Some value) [] None.

(** A record with three identifiers, and a record whose title carries
    inline markup. *)
Definition doc_with_ids : ET.Element :=
  node "PubmedArticleSet"
    [node "PubmedArticle"
       [node "MedlineCitation" [node "Article" [node "AuthorList" [jane]]];
        node "PubmedData"
          [node "ArticleIdList"
             [article_id "pubmed" "123"; article_id "doi" "10.1000/x1";
              article_id "doi" "10.1000/x2"]]]].

Definition doc_markup_title : ET.Element :=
  raw_document
    [ET.Elem "ArticleTitle" ∅ (Some "Effect of")
       [ET.Elem "i" ∅ (Some "in vivo") [] (Some "dosing")] None]
    [jane].

(** ** [save_to_csv] *)

(** One row of the report, a dict keyed by the seven column names. *)
Record Row := mkRow {
  PubmedID : string;
  Title : string;
  Publication_Date : string;
  DOI : option string;
  Non_academic_Authors : string;
  Company_Affiliations : string;
  Corresponding_Author_Email : string
}.


(** [for author in paper['industry_authors']]: the names are appended to a
    list, the non-empty affiliations added to a set. *)
Fixpoint row_authors_loop (names : list string) (affiliations : gset string)
    (authors : list Author) : list string * gset string :=
  match authors with
  | [] => (names, affiliations)
  | author :: rest =>
      row_authors_loop (names ++ [name author])
        (if Py.truthy (affiliation author)
         then affiliations ∪ {[ Py.or_empty (affiliation author) ]}
         else affiliations)
        rest
  end.

(** The row built for one paper.  The set of affiliations is joined in the
    order Python enumerates it, which is not fixed; [elements] is one
    enumeration. *)
Definition csv_row (paper : Article) : Row :=
  let collected := row_authors_loop [] ∅ (industry_authors paper) in
  {| PubmedID := pubmed_id paper;
     Title := title paper;
     Publication_Date := publication_date paper;
     DOI := doi paper;
     Non_academic_Authors := Py.join "; " collected.1;
     Company_Affiliations := Py.join "; " (elements collected.2);
     Corresponding_Author_Email := Py.join "; " (corresponding_emails paper) |}.



(** ** [search_pubmed] *)

(** The values the keyword arguments of [search_pubmed] take: [None], a
    string (dates, API key) or an integer (the pagination index). *)
Inductive pyval := PyNone | PyStr (s : string) | PyInt (n : Z).

#[export] Instance pyval_eq_dec : EqDecision pyval.
Proof. solve_decision. Defined.




(** What [json.loads] returns.  A number is kept as its literal; the code
    never looks into one. *)
Inductive json :=
  | JNull
  | JBool (b : bool)
  | JNum (literal : string)
  | JStr (s : string)
  | JList (l : list json)
  | JDict (m : gmap string json).

(** What the request produced: an exception of [make_api_request], a body
    that is not JSON, or the decoded body. *)
Inductive search_reply :=
  | RequestFailed
  | NotJson
  | Reply (data : json).

(** The two exceptions [search_pubmed] lets out of its [try]:
    "Failed to parse PubMed response" and "Error searching PubMed". *)
Inductive search_error := FailedToParse | ErrorSearching.

(** ['error' in data]: key lookup in a dict, element test in a list,
    substring test in a string; [None] stands for the [TypeError] of the
    other values. *)
Definition error_in (data : json) : option bool :=
  match data with
  | JDict m => Some (bool_decide (is_Some (m !! "error")))
  | JList l =>
      Some (existsb (λ x, match x with
                          | JStr s => String.eqb s "error"
                          | _ => false
                          end) l)
  | JStr s => Some (Py.str_in "error" s)
  | _ => None
  end.

(** [d.get(key, dflt)]; [None] stands for the [AttributeError] of a value
    that is not a dict. *)
Definition py_get (d : json) (key : string) (dflt : json) : option json :=
  match d with
  | JDict m => Some (default dflt (m !! key))
  | _ => None
  end.

(** The [try] block of [search_pubmed] after the request: every exception
    raised inside it, the "PubMed API error" included, is re-raised by
    [except Exception] as "Error searching PubMed". *)
Definition search_result (reply : search_reply) : search_error + json :=
  match reply with
  | RequestFailed => inl ErrorSearching
  | NotJson => inl FailedToParse
  | Reply data =>
      match error_in data with
      | None => inl ErrorSearching
      | Some true => inl ErrorSearching
      | Some false =>
          match py_get data "esearchresult" (JDict ∅) with
          | None => inl ErrorSearching
          | Some esearchresult =>
              match py_get esearchresult "idlist" (JList []) with
              | None => inl ErrorSearching
              | Some idlist => inr idlist
              end
          end
      end
  end.

(** ** [is_valid_date] *)

(** The date pattern uses [\d], which in Python matches every Unicode
    decimal digit, so the date strings are taken as lists of code points
    and the class of decimal digits as a parameter. *)
Module Rx.

Inductive regex :=
  | Chr (c : N → bool)
  | Seq (r1 r2 : regex)
  | Opt (r : regex)
  | Times (lo hi : nat) (c : N → bool).

(** [c{lo,hi}], greedy: one more character first, then the rest of the
    pattern [k] once [lo] characters are consumed. *)
Fixpoint times (c : N → bool) (lo hi : nat) (k : list N → bool) (s : list N) : bool :=
  let stop := match lo with 0 => k s | S _ => false end in
  match hi, s with
  | S hi', x :: s' => (c x && times c (pred lo) hi' k s') || stop
  | _, _ => stop
  end.

(** Does the pattern match at the start of [s], with [k] accepting what
    follows? *)
Fixpoint accepts (r : regex) (k : list N → bool) (s : list N) : bool :=
  match r with
  | Chr c =>
      match s with
      | x :: s' => c x && k s'
      | [] => false
      end
  | Seq r1 r2 => accepts r1 (accepts r2 k) s
  | Opt r => accepts r k s || k s
  | Times lo hi c => times c lo hi k s
  end.

(** [$]: the end of the string, or just before a newline that ends it. *)
Definition at_end (s : list N) : bool :=
  match s with
  | [] => true
  | [10%N] => true
  | _ => false
  end.

(** The texts a pattern matches. *)
Inductive lang : regex → list N → Prop :=
  | lang_chr c x : c x = true → lang (Chr c) [x]
  | lang_seq r1 r2 a b : lang r1 a → lang r2 b → lang (Seq r1 r2) (a ++ b)
  | lang_opt_none r : lang (Opt r) []
  | lang_opt_some r a : lang r a → lang (Opt r) a
  | lang_times lo hi c a :
      (lo ≤ length a ≤ hi)%nat → Forall (λ x, c x = true) a →
      lang (Times lo hi c) a.

End Rx.

(** The code point of [/]. *)
Definition slash : N := 47.

(** [^\d{4}(/\d{1,2}(/\d{1,2})?)?$] without its anchors. *)
Definition DATE_PATTERN (digit : N → bool) : Rx.regex :=
  Rx.Seq (Rx.Times 4 4 digit)
    (Rx.Opt (Rx.Seq (Rx.Chr (N.eqb slash))
       (Rx.Seq (Rx.Times 1 2 digit)
          (Rx.Opt (Rx.Seq (Rx.Chr (N.eqb slash)) (Rx.Times 1 2 digit)))))).

(** [bool(re.match(pattern, date_str))] *)
Definition is_valid_date (digit : N → bool) (date_str : list N) : bool :=
  Rx.accepts (DATE_PATTERN digit) Rx.at_end date_str.

(** The two date checks of [parse_arguments]: [true] when the function
    goes on, [false] when it prints the format error and exits with
    status 1.  An option that was not given is [None]. *)
Definition dates_pass (digit : N → bool) (mindate maxdate : option (list N)) : bool :=
  let fails (d : option (list N)) :=
    match d with
    | Some (x :: rest) => negb (is_valid_date digit (x :: rest))
    | _ => false
    end in
  if fails mindate then false
  else if fails maxdate then false
  else true.

(** A run of [lo] to [hi] decimal digits. *)
Definition digits (digit : N → bool) (lo hi : nat) (l : list N) : Prop :=
  (lo ≤ length l ≤ hi)%nat ∧ Forall (λ x, digit x = true) l.

(** Four digits, optionally a slash and one or two digits, optionally
    another slash and one or two digits, optionally a final newline. *)
Definition date_shape (digit : N → bool) (s : list N) : Prop :=
  ∃ y md nl,
    s = y ++ md ++ nl ∧ digits digit 4 4 y ∧
    (md = [] ∨
     ∃ m dd, md = slash :: m ++ dd ∧ digits digit 1 2 m ∧
             (dd = [] ∨ ∃ d, dd = slash :: d ∧ digits digit 1 2 d)) ∧
    (nl = [] ∨ nl = [10%N]).

(** The ASCII digits, and the code points of an ASCII string. *)
Definition ascii_digit (c : N) : bool := (48 <=? c)%N && (c <=? 57)%N.

Definition codes (s : string) : list N :=
  N_of_ascii <$> list_ascii_of_string s.

(** * Properties *)

Section Classifier.

Variable lower : string -> string.

Lemma any_keyword_in_existsb keywords s :
  any_keyword_in keywords s = existsb (fun k => Py.str_in k s) keywords.
Proof.
  induction keywords as [|k rest IH]; simpl; [done|].
  rewrite IH. by destruct (Py.str_in k s).
Qed.

Lemma any_keyword_in_occurs keywords s :
  any_keyword_in keywords s = true ↔ occurs_in keywords s.
Proof.
  unfold occurs_in. induction keywords as [|k rest IH]; simpl.
  - split; [done|]. intros (k & Hk & _). by apply elem_of_nil in Hk.
  - destruct (Py.str_in k s) eqn:Hin.
    + split; [|done]. intros _. exists k. split; [left|done].
    + rewrite IH. split.
      * intros (k' & Hk' & Hs). exists k'. split; [by right|done].
      * intros (k' & Hk' & Hs). apply elem_of_cons in Hk' as [->|Hk'].
        -- congruence.
        -- by exists k'.
Qed.

Lemma truthy_false (a : option string) :
  Py.truthy a = false ↔ a = None ∨ a = Some "".
Proof.
  destruct a as [[|c s]|]; simpl; split; try done; auto.
  - intros [|]; done.
Qed.

Lemma is_industry_affiliation_classify a :
  is_industry_affiliation lower a = true ↔ classify lower a = Industry.
Proof.
  unfold is_industry_affiliation, classify.
  rewrite !any_keyword_in_existsb.
  destruct a as [[|c s]|]; cbn [Py.truthy Py.or_empty negb]; try done.
  destruct (existsb _ ACADEMIC_KEYWORDS); [done|].
  destruct (existsb _ INDUSTRY_KEYWORDS); done.
Qed.

(** C2: the classifier follows the ordered procedure.  An empty or absent
    affiliation is not industry; for a non-empty text, an academic keyword
    occurring in the lower-cased text makes it not industry whatever
    industry keywords occur; without academic keyword an industry keyword
    makes it industry; without either it is not industry.  The function
    agrees with [classify], the procedure as the design document words
    it. *)
Theorem C2_classifier_ordered_procedure (a : option string) :
  (a = None ∨ a = Some "" → is_industry_affiliation lower a = false) ∧
  (∀ t, a = Some t → t ≠ "" →
     (occurs_in ACADEMIC_KEYWORDS (lower t) →
        is_industry_affiliation lower a = false) ∧
     (¬ occurs_in ACADEMIC_KEYWORDS (lower t) →
        occurs_in INDUSTRY_KEYWORDS (lower t) →
        is_industry_affiliation lower a = true) ∧
     (¬ occurs_in ACADEMIC_KEYWORDS (lower t) →
        ¬ occurs_in INDUSTRY_KEYWORDS (lower t) →
        is_industry_affiliation lower a = false)) ∧
  (is_industry_affiliation lower a = true ↔ classify lower a = Industry).
Proof.
  split; [|split].
  - intros H. apply truthy_false in H.
    unfold is_industry_affiliation. by rewrite H.
  - intros t -> Ht.
    assert (Htr : Py.truthy (Some t) = true) by (by destruct t).
    unfold is_industry_affiliation. rewrite Htr. simpl negb. cbv iota.
    assert (Hoe : Py.or_empty (Some t) = t) by (by destruct t).
    rewrite Hoe. cbv zeta.
    repeat split.
    + intros Hac. apply any_keyword_in_occurs in Hac. by rewrite Hac.
    + intros Hnac Hind.
      destruct (any_keyword_in ACADEMIC_KEYWORDS (lower t)) eqn:E.
      { apply any_keyword_in_occurs in E. contradiction. }
      apply any_keyword_in_occurs in Hind. by rewrite Hind.
    + intros Hnac Hnind.
      destruct (any_keyword_in ACADEMIC_KEYWORDS (lower t)) eqn:E; [done|].
      destruct (any_keyword_in INDUSTRY_KEYWORDS (lower t)) eqn:E'; [|done].
      apply any_keyword_in_occurs in E'. contradiction.
  - apply is_industry_affiliation_classify.
Qed.

End Classifier.

(** The two examples of the design document, on ASCII text. *)
Example classify_university_pharma :
  is_industry_affiliation Py.ascii_lower (Some "University Pharma Research Institute") = false.
Proof. reflexivity. Qed.

Example classify_pfizer :
  is_industry_affiliation Py.ascii_lower (Some "Pfizer Inc, Cambridge") = true.
Proof. reflexivity. Qed.

(** ** The e-mail pattern *)

Lemma repeat_greedy_nonempty c n k taken s m :
  taken < n → Re.repeat_greedy c n k taken s = Some m → m ≠ "".
Proof.
  intros Hlt. apply Nat.leb_gt in Hlt.
  destruct s as [|x s']; simpl; rewrite Hlt; [done|].
  destruct (c x); [|done].
  destruct (Re.repeat_greedy c n k (S taken) s'); [|done].
  by intros [= <-].
Qed.

Lemma search_email_nonempty s m :
  Re.search EMAIL_PATTERN s = Some m → m ≠ "".
Proof.
  induction s as [|x s' IH]; cbn [Re.search].
  - done.
  - destruct (Re.match_here EMAIL_PATTERN (String x s')) as [m'|] eqn:E.
    + intros [= <-]. revert E. apply repeat_greedy_nonempty. lia.
    + apply IH.
Qed.

(** The pattern on three texts: the domain gives back characters until a
    dot followed by two letters is found; a one-letter top-level label is
    no match and the search moves on; digits end the top-level label. *)
Example search_email_backtracks :
  Re.search EMAIL_PATTERN "Contact: j.doe@pfizer.com.uk." = Some "j.doe@pfizer.com.uk".
Proof. reflexivity. Qed.

Example search_email_leftmost :
  Re.search EMAIL_PATTERN "a@b.c or x@y.zz" = Some "x@y.zz".
Proof. reflexivity. Qed.

Example search_email_label :
  Re.search EMAIL_PATTERN "a@b.c1.de9" = Some "a@b.c1.de".
Proof. reflexivity. Qed.

Example search_email_none :
  Re.search EMAIL_PATTERN "Pfizer Inc, New York" = None.
Proof. reflexivity. Qed.

(** ** The author extractor *)

Section AuthorExtractor.

Variable lower : string -> string.

Lemma has_names_false e :
  has_names e = false ↔ ET.find "LastName" e = None ∨ ET.find "ForeName" e = None.
Proof.
  unfold has_names.
  destruct (ET.find "LastName" e), (ET.find "ForeName" e);
    (split; [try done; auto | intros [|]; done]).
Qed.

Lemma parse_author_missing_name e :
  has_names e = false → parse_author lower e = Ok None.
Proof.
  unfold has_names, parse_author.
  by destruct (ET.find "LastName" e), (ET.find "ForeName" e).
Qed.

(** What a successfully extracted author is made of. *)
Lemma parse_author_some e au :
  parse_author lower e = Ok (Some au) →
  has_names e = true ∧
  read_affiliation e = Ok (affiliation au) ∧
  is_corresponding au =
    (String.eqb (ET.get e "ValidYN" "N") "Y"
     || Py.str_in "corresponding" (lower (Py.or_empty (affiliation au)))) ∧
  email au =
    (if Py.truthy (affiliation au)
     then Re.search EMAIL_PATTERN (Py.or_empty (affiliation au)) else None).
Proof.
  unfold has_names, parse_author.
  destruct (ET.find "LastName" e), (ET.find "ForeName" e); try done.
  destruct (read_affiliation e) as [aff|]; simpl; [|done].
  by intros [= <-].
Qed.

Lemma parse_author_none e :
  parse_author lower e = Ok None → has_names e = false.
Proof.
  unfold has_names, parse_author.
  destruct (ET.find "LastName" e), (ET.find "ForeName" e); try done.
  by destruct (read_affiliation e).
Qed.

(** An extracted e-mail is never the empty string, so it is truthy. *)
Lemma parse_author_email_truthy e au x :
  parse_author lower e = Ok (Some au) → email au = Some x →
  Py.truthy (email au) = true ∧ Py.or_empty (email au) = x.
Proof.
  intros (_ & _ & _ & Hem)%parse_author_some Hx.
  rewrite Hx in Hem. destruct (Py.truthy (affiliation au)); [|done].
  symmetry in Hem. apply search_email_nonempty in Hem.
  rewrite Hx. by destruct x.
Qed.

(** Missing optional fields that do degrade to empty or null values. *)
Lemma parse_author_no_affiliation_info e :
  has_names e = true → ET.find "AffiliationInfo" e = None →
  ∃ au, parse_author lower e = Ok (Some au) ∧
        affiliation au = Some "" ∧ email au = None.
Proof.
  unfold has_names, parse_author, read_affiliation. intros Hn ->.
  destruct (ET.find "LastName" e), (ET.find "ForeName" e); try done.
  simpl. eauto.
Qed.

Lemma parse_author_empty_affiliation e info a :
  has_names e = true → ET.find "AffiliationInfo" e = Some info →
  ET.find "Affiliation" info = Some a → ET.text a = None →
  ∃ au, parse_author lower e = Ok (Some au) ∧
        affiliation au = None ∧ email au = None.
Proof.
  unfold has_names, parse_author, read_affiliation. intros Hn -> -> ->.
  destruct (ET.find "LastName" e), (ET.find "ForeName" e); try done.
  simpl. eauto.
Qed.

(** The one missing field that does not degrade: an [AffiliationInfo]
    block without [Affiliation] child. *)
Lemma parse_author_raises e info :
  has_names e = true → ET.find "AffiliationInfo" e = Some info →
  ET.find "Affiliation" info = None →
  parse_author lower e = Raise AttributeError.
Proof.
  unfold has_names, parse_author, read_affiliation. intros Hn -> ->.
  by destruct (ET.find "LastName" e), (ET.find "ForeName" e).
Qed.

(** [parse_author] raises in no other case. *)
Lemma parse_author_raise_inv e x :
  parse_author lower e = Raise x →
  x = AttributeError ∧ has_names e = true ∧
  ∃ info, ET.find "AffiliationInfo" e = Some info ∧
          ET.find "Affiliation" info = None.
Proof.
  unfold has_names, parse_author, read_affiliation.
  destruct (ET.find "LastName" e), (ET.find "ForeName" e); try done.
  destruct (ET.find "AffiliationInfo" e) as [info|]; [|done].
  destruct (ET.find "Affiliation" info) eqn:Ha; [done|].
  simpl. intros [= <-]. eauto.
Qed.

Lemma get_ValidYN e :
  String.eqb (ET.get e "ValidYN" "N") "Y" = true ↔ ET.attrib e !! "ValidYN" = Some "Y".
Proof.
  unfold ET.get. rewrite String.eqb_eq.
  destruct (ET.attrib e !! "ValidYN") as [v|]; simpl; naive_solver.
Qed.

(** C8: an extracted author is flagged as corresponding exactly when the
    raw record carries [ValidYN = Y] or its affiliation text, lower-cased,
    contains "corresponding". *)
Theorem C8_is_corresponding_iff (e : ET.Element) (au : Author) :
  parse_author lower e = Ok (Some au) →
  read_affiliation e = Ok (affiliation au) ∧
  (is_corresponding au = true ↔
     ET.attrib e !! "ValidYN" = Some "Y" ∨
     Py.str_in "corresponding" (lower (Py.or_empty (affiliation au))) = true).
Proof.
  intros (_ & Haff & Hcorr & _)%parse_author_some. split; [done|].
  rewrite Hcorr, orb_true_iff, get_ValidYN. done.
Qed.

End AuthorExtractor.

(** ** The author loop *)

Section AuthorLoop.

Variable lower : string -> string.

Local Abbreviation industry au := (is_industry_affiliation lower (affiliation au)).

Lemma author_step_dropped acc e :
  has_names e = false → author_step lower acc e = Ok acc.
Proof.
  intros H. unfold author_step. by rewrite (parse_author_missing_name lower e H).
Qed.

Lemma author_step_kept acc e acc' :
  has_names e = true → author_step lower acc e = Ok acc' →
  ∃ au, parse_author lower e = Ok (Some au) ∧
    acc_authors acc' = acc_authors acc ++ [au] ∧
    acc_industry acc' = acc_industry acc ++ List.filter (λ a, industry a) [au] ∧
    (∀ x, x ∈ acc_emails acc' ↔
          x ∈ acc_emails acc ∨ (is_corresponding au = true ∧ email au = Some x)).
Proof.
  intros Hn. unfold author_step.
  destruct (parse_author lower e) as [[au|]|x] eqn:Hp; simpl; try done.
  - intros [= <-]. exists au. simpl. split; [done|]. split; [done|]. split.
    + destruct (industry au); [done|]. by rewrite app_nil_r.
    + intros x. destruct (is_corresponding au) eqn:Hc; simpl.
      * destruct (email au) as [m|] eqn:Hm.
        -- destruct (parse_author_email_truthy lower e au m Hp Hm) as [Ht Ho].
           rewrite Hm in Ht, Ho. rewrite Ht, Ho. set_solver.
        -- simpl. naive_solver.
      * naive_solver.
  - apply parse_author_none in Hp. congruence.
Qed.

(** The loop, when it completes, has appended the extracted authors in
    source order, the industry ones among them to [industry_authors], and
    the e-mails of the corresponding ones to the set. *)
Lemma author_loop_ok elems : ∀ acc acc',
  author_loop lower acc elems = Ok acc' →
  ∃ added,
    Forall2 (λ r au, parse_author lower r = Ok (Some au))
            (List.filter has_names elems) added ∧
    acc_authors acc' = acc_authors acc ++ added ∧
    acc_industry acc' = acc_industry acc ++ List.filter (λ a, industry a) added ∧
    (∀ x, x ∈ acc_emails acc' ↔
          x ∈ acc_emails acc ∨
          ∃ au, au ∈ added ∧ is_corresponding au = true ∧ email au = Some x).
Proof.
  induction elems as [|e rest IH]; intros acc acc'; simpl.
  - intros [= <-]. exists []. rewrite !app_nil_r. repeat split; [constructor| |].
    + by left.
    + intros [|(au & []%elem_of_nil & _)]; done.
  - destruct (author_step lower acc e) as [acc1|x] eqn:Hs; simpl; [|done].
    intros (added & Hf & Ha & Hi & He)%IH.
    destruct (has_names e) eqn:Hn.
    + destruct (author_step_kept _ _ _ Hn Hs) as (au & Hp & Ha1 & Hi1 & He1).
      exists (au :: added). split; [by constructor|].
      rewrite Ha, Ha1, Hi, Hi1, <- !app_assoc.
      split; [done|]. split.
      { simpl. by destruct (industry au). }
      intros x; split.
      * intros Hx. apply He in Hx as [Hx|(au' & Hin & Hc)].
        -- apply He1 in Hx as [Hx|Hx]; [by left|].
           right. exists au. split; [left|done].
        -- right. exists au'. split; [by right|done].
      * intros [Hx|(au' & Hin & Hc)]; apply He.
        -- left. apply He1. by left.
        -- apply elem_of_cons in Hin as [->|Hin].
           ++ left. apply He1. by right.
           ++ right. by exists au'.
    + rewrite (author_step_dropped _ _ Hn) in Hs. injection Hs as <-.
      by exists added.
Qed.

(** The loop completes when no author record raises. *)
Lemma author_loop_total elems : ∀ acc,
  (∀ e, e ∈ elems → ∀ x, parse_author lower e ≠ Raise x) →
  ∃ acc', author_loop lower acc elems = Ok acc'.
Proof.
  induction elems as [|e rest IH]; intros acc Hok; simpl; [by eexists|].
  assert (∃ acc1, author_step lower acc e = Ok acc1) as [acc1 ->].
  { unfold author_step.
    destruct (parse_author lower e) as [[au|]|x] eqn:Hp; simpl; eauto.
    exfalso. apply (Hok e (list_elem_of_here _ _) x Hp). }
  simpl. apply IH. intros e' He'. apply Hok. by right.
Qed.

(** A record without both names leaves the loop as it would be without
    the record. *)
Lemma author_loop_drop e before after : ∀ acc,
  has_names e = false →
  author_loop lower acc (before ++ e :: after) = author_loop lower acc (before ++ after).
Proof.
  intros acc Hn. revert acc.
  induction before as [|b before IH]; intros acc; simpl.
  - by rewrite (author_step_dropped _ _ Hn).
  - destruct (author_step lower acc b); simpl; [apply IH|done].
Qed.

End AuthorLoop.

(** ** The article extractor *)

Lemma Forall2_elem_of_left {A B} (R : A → B → Prop) l k x :
  Forall2 R l k → x ∈ l → ∃ y, y ∈ k ∧ R x y.
Proof.
  induction 1 as [|a b l k HR _ IH]; intros Hx.
  - by apply elem_of_nil in Hx.
  - apply elem_of_cons in Hx as [->|Hx].
    + exists b. split; [left|done].
    + destruct (IH Hx) as (y & Hy & HRy). exists y. split; [by right|done].
Qed.

Lemma Forall2_elem_of_right {A B} (R : A → B → Prop) l k y :
  Forall2 R l k → y ∈ k → ∃ x, x ∈ l ∧ R x y.
Proof.
  induction 1 as [|a b l k HR _ IH]; intros Hy.
  - by apply elem_of_nil in Hy.
  - apply elem_of_cons in Hy as [->|Hy].
    + exists a. split; [left|done].
    + destruct (IH Hy) as (x & Hx & HRx). exists x. split; [by right|done].
Qed.

Lemma elem_of_bool_filter {A} (f : A → bool) l x :
  x ∈ List.filter f l ↔ x ∈ l ∧ f x = true.
Proof. rewrite !list_elem_of_In. apply filter_In. Qed.

Lemma bool_filter_nil {A} (f : A → bool) l :
  List.filter f l = [] ↔ ∀ x, x ∈ l → f x = false.
Proof.
  induction l as [|a l IH]; simpl.
  - split; [|done]. intros _ x Hx. by apply elem_of_nil in Hx.
  - destruct (f a) eqn:Hfa.
    + split; [done|]. intros H. specialize (H a (list_elem_of_here _ _)). congruence.
    + rewrite IH. split.
      * intros H x [->|Hx]%elem_of_cons; auto.
      * intros H x Hx. apply H. by right.
Qed.

Section ArticleExtractor.

Variable lower : string -> string.

Local Abbreviation industry au := (is_industry_affiliation lower (affiliation au)).

(** The result of [get_article_details] once the required blocks are found
    and the author loop has completed. *)
Lemma get_article_details_blocks id root article article_data medline acc :
  ET.find_desc "PubmedArticle" root = Some article →
  ET.find_desc "Article" article = Some article_data →
  ET.find_desc "MedlineCitation" article = Some medline →
  author_loop lower acc_init (ET.findall_desc "Author" article) = Ok acc →
  get_article_details lower id (Document root) =
    Ok (match acc_industry acc with
        | [] => None
        | _ :: _ =>
            Some {| pubmed_id := id;
                    title := article_title article_data;
                    publication_date := pub_date_str article;
                    doi := doi_scan (Some "")
                             (ET.findall_desc_child "ArticleIdList" "ArticleId" article);
                    all_authors := acc_authors acc;
                    industry_authors := acc_industry acc;
                    corresponding_emails := elements (acc_emails acc) |}
        end).
Proof.
  intros Ha Hd Hm Hl. unfold get_article_details, get_article_details_try.
  rewrite Ha, Hd, Hm, Hl. simpl. by destruct (acc_industry acc).
Qed.

(** Every returned article comes from a document with the required blocks
    and a completed author loop. *)
Lemma get_article_details_some id resp a :
  get_article_details lower id resp = Ok (Some a) →
  ∃ root article acc,
    resp = Document root ∧
    ET.find_desc "PubmedArticle" root = Some article ∧
    author_loop lower acc_init (ET.findall_desc "Author" article) = Ok acc ∧
    acc_industry acc ≠ [] ∧
    publication_date a = pub_date_str article ∧
    all_authors a = acc_authors acc ∧
    industry_authors a = acc_industry acc ∧
    corresponding_emails a = elements (acc_emails acc).
Proof.
  unfold get_article_details, get_article_details_try.
  destruct resp as [|root]; [done|].
  destruct (ET.find_desc "PubmedArticle" root) as [article|] eqn:Ha; [|done].
  destruct (ET.find_desc "Article" article) as [article_data|]; [|done].
  destruct (ET.find_desc "MedlineCitation" article) as [medline|]; [|done].
  destruct (author_loop lower acc_init _) as [acc|x] eqn:Hl; simpl; [|done].
  destruct (acc_industry acc) as [|i is'] eqn:Hi; [done|].
  intros [= <-]. exists root, article, acc. simpl. rewrite Hi.
  repeat split; done.
Qed.

(** [get_article_details] itself never raises. *)
Lemma get_article_details_no_raise id resp :
  ∃ r, get_article_details lower id resp = Ok r.
Proof.
  unfold get_article_details.
  destruct (get_article_details_try lower id resp); eauto.
Qed.

(** The lists of a returned article, in terms of the raw author records. *)
Lemma returned_article_authors id root article a :
  ET.find_desc "PubmedArticle" root = Some article →
  get_article_details lower id (Document root) = Ok (Some a) →
  Forall2 (λ r au, parse_author lower r = Ok (Some au))
          (List.filter has_names (ET.findall_desc "Author" article)) (all_authors a) ∧
  industry_authors a = List.filter (λ au, industry au) (all_authors a) ∧
  industry_authors a ≠ [] ∧
  (∀ x, x ∈ corresponding_emails a ↔
        ∃ au, au ∈ all_authors a ∧ is_corresponding au = true ∧ email au = Some x).
Proof.
  intros Ha (root' & article' & acc & [= <-] & Ha' & Hl & Hne & _ & Hall & Hind & Hem)
    %get_article_details_some.
  rewrite Ha in Ha'. injection Ha' as <-.
  apply author_loop_ok in Hl as (added & Hf & Hau & Hin & He). simpl in *.
  rewrite Hall, Hind, Hau. repeat split; try done.
  - rewrite Hem. intros Hx%elem_of_elements. apply He in Hx as [Hx|Hx]; [|done].
    by apply elem_of_empty in Hx.
  - rewrite Hem. intros Hx. apply elem_of_elements, He. by right.
Qed.

End ArticleExtractor.

(** ** Inclusion decision, author lists and corresponding e-mails *)

Section ArticleClaims.

Variable lower : string -> string.

Local Abbreviation industry au := (is_industry_affiliation lower (affiliation au)).

(** C1 (amended): for a raw article whose required blocks are present and
    none of whose author records raises during extraction,
    [get_article_details] returns [None] exactly when no extracted author
    classifies as industry; and whenever it returns an article, its
    [industry_authors] is the ordered subsequence of [all_authors] whose
    affiliation classifies as industry, and is not empty. *)
Theorem C1_inclusion_when_authors_parse
    (id : string) (root article article_data medline : ET.Element) :
  ET.find_desc "PubmedArticle" root = Some article →
  ET.find_desc "Article" article = Some article_data →
  ET.find_desc "MedlineCitation" article = Some medline →
  (∀ e, e ∈ ET.findall_desc "Author" article → ∀ x, parse_author lower e ≠ Raise x) →
  (get_article_details lower id (Document root) = Ok None ↔
     ∀ e au, e ∈ ET.findall_desc "Author" article →
             parse_author lower e = Ok (Some au) → industry au = false) ∧
  (∀ a, get_article_details lower id (Document root) = Ok (Some a) →
     industry_authors a = List.filter (λ au, industry au) (all_authors a) ∧
     industry_authors a ≠ []).
Proof.
  intros Ha Hd Hm Hok.
  destruct (author_loop_total lower _ acc_init Hok) as [acc Hl].
  pose proof (get_article_details_blocks lower id _ _ _ _ _ Ha Hd Hm Hl) as Hres.
  destruct (author_loop_ok lower _ _ _ Hl) as (added & Hf & _ & Hin & _).
  simpl in Hin. split.
  - rewrite Hres. split.
    + intros Hnone e au He Hp.
      assert (Hnil : List.filter (λ a, industry a) added = []).
      { rewrite <- Hin. by destruct (acc_industry acc). }
      rewrite bool_filter_nil in Hnil. apply Hnil.
      destruct (parse_author_some lower e au Hp) as (Hn & _).
      assert (He' : e ∈ List.filter has_names (ET.findall_desc "Author" article))
        by by apply elem_of_bool_filter.
      destruct (Forall2_elem_of_left _ _ _ _ Hf He') as (au' & Hau' & Hp').
      rewrite Hp in Hp'. by injection Hp' as <-.
    + intros Hall.
      assert (Hnil : acc_industry acc = []).
      { rewrite Hin. apply bool_filter_nil. intros au Hau.
        destruct (Forall2_elem_of_right _ _ _ _ Hf Hau) as (e & He & Hp).
        apply elem_of_bool_filter in He as [He _]. by apply (Hall e). }
      by rewrite Hnil.
  - intros a Hsome.
    destruct (returned_article_authors lower id root article a Ha Hsome)
      as (_ & Hind & Hne & _).
    done.
Qed.

(** C7: the [corresponding_emails] of a returned article has no duplicates
    and holds exactly the e-mails of the extracted authors that are
    corresponding and have an e-mail. *)
Theorem C7_corresponding_emails_exact (id : string) (resp : response) (a : Article) :
  get_article_details lower id resp = Ok (Some a) →
  NoDup (corresponding_emails a) ∧
  (∀ x, x ∈ corresponding_emails a ↔
        ∃ au, au ∈ all_authors a ∧ is_corresponding au = true ∧ email au = Some x).
Proof.
  intros Hsome.
  destruct (get_article_details_some lower id resp a Hsome)
    as (root & article & acc & -> & Ha & _ & _ & _ & _ & _ & Hem).
  split.
  - rewrite Hem. apply NoDup_elements.
  - destruct (returned_article_authors lower id root article a Ha Hsome)
      as (_ & _ & _ & He).
    exact He.
Qed.

(** C6: a raw author record without last-name or without fore-name is
    extracted as [None]; the author loop runs as it would without the
    record, whatever precedes and follows it; and in a returned article
    [all_authors] is, in order, the extraction of the raw records that have
    both names, the nameless record not being one of them. *)
Theorem C6_nameless_author_dropped (e : ET.Element) :
  ET.find "LastName" e = None ∨ ET.find "ForeName" e = None →
  parse_author lower e = Ok None ∧
  (∀ acc before after,
     author_loop lower acc (before ++ e :: after) =
     author_loop lower acc (before ++ after)) ∧
  (∀ id root article a,
     ET.find_desc "PubmedArticle" root = Some article →
     get_article_details lower id (Document root) = Ok (Some a) →
     (e ∉ List.filter has_names (ET.findall_desc "Author" article)) ∧
     Forall2 (λ r au, parse_author lower r = Ok (Some au))
             (List.filter has_names (ET.findall_desc "Author" article))
             (all_authors a)).
Proof.
  intros Hmiss%has_names_false. split; [|split].
  - by apply parse_author_missing_name.
  - intros acc before after. by apply author_loop_drop.
  - intros id root article a Ha Hsome. split.
    + intros [_ Hn]%elem_of_bool_filter. congruence.
    + by destruct (returned_article_authors lower id root article a Ha Hsome).
Qed.

End ArticleClaims.

Ltac list_cases H :=
  repeat (apply elem_of_cons in H as [->|H]); [..|by apply elem_of_nil in H].

(** The amended C1 on an article with one industry and one academic
    author. *)
Lemma C1_witness_industry_academic :
  ∃ article,
    ET.find_desc "PubmedArticle" doc_industry_academic = Some article ∧
    (get_article_details Py.ascii_lower "1" (Document doc_industry_academic) = Ok None ↔
       ∀ e au, e ∈ ET.findall_desc "Author" article →
               parse_author Py.ascii_lower e = Ok (Some au) →
               is_industry_affiliation Py.ascii_lower (affiliation au) = false) ∧
    (∀ a, get_article_details Py.ascii_lower "1" (Document doc_industry_academic) = Ok (Some a) →
       industry_authors a =
         List.filter (λ au, is_industry_affiliation Py.ascii_lower (affiliation au))
                     (all_authors a) ∧
       industry_authors a ≠ []).
Proof.
  eexists. split; [reflexivity|].
  eapply (C1_inclusion_when_authors_parse Py.ascii_lower "1" doc_industry_academic);
    [reflexivity..|].
  intros e He x. vm_compute in He. list_cases He; vm_compute; discriminate.
Defined.

(** C1 as stated fails: the required blocks are present and the first
    author classifies as industry, yet the result is [None], because the
    second author's [AffiliationInfo] has no [Affiliation] child. *)
Lemma C1_counterexample_unparsed_author :
  ∃ article article_data medline,
    ET.find_desc "PubmedArticle" doc_no_affiliation_text = Some article ∧
    ET.find_desc "Article" article = Some article_data ∧
    ET.find_desc "MedlineCitation" article = Some medline ∧
    ¬ (get_article_details Py.ascii_lower "1" (Document doc_no_affiliation_text) = Ok None ↔
       ∀ e au, e ∈ ET.findall_desc "Author" article →
               parse_author Py.ascii_lower e = Ok (Some au) →
               is_industry_affiliation Py.ascii_lower (affiliation au) = false).
Proof.
  eexists _, _, _. repeat split; [reflexivity..|].
  intros [H _]. specialize (H eq_refl jane).
  assert (Hj : jane ∈ ET.findall_desc "Author"
                 (node "PubmedArticle"
                    [node "MedlineCitation"
                       [node "Article" [node "AuthorList" [jane; no_affiliation_text]]]]))
    by (vm_compute; left).
  specialize (H _ Hj eq_refl). vm_compute in H. discriminate.
Qed.

(** ** Publication date *)

Section PublicationDate.

Variable lower : string -> string.

Lemma returned_publication_date id root article a :
  ET.find_desc "PubmedArticle" root = Some article →
  get_article_details lower id (Document root) = Ok (Some a) →
  publication_date a = pub_date_str article.
Proof.
  intros Ha (root' & article' & acc & [= <-] & Ha' & _ & _ & Hpd & _)
    %get_article_details_some.
  rewrite Ha in Ha'. by injection Ha' as <-.
Qed.

(** C4 (amended): when the publication-date block is present, the date of
    a returned article is built from Year, Month, Day in nested order and
    stops at the first field that is absent (or has no text): no Year gives
    the placeholder, Year alone gives the year, Year and Month give
    year-month, and all three give year-month-day. *)
Theorem C4_publication_date_nested
    (id : string) (root article pub_date : ET.Element) (a : Article) :
  ET.find_desc "PubmedArticle" root = Some article →
  ET.find_desc "PubDate" article = Some pub_date →
  get_article_details lower id (Document root) = Ok (Some a) →
  let year := ET.find "Year" pub_date in
  let month := ET.find "Month" pub_date in
  let day := ET.find "Day" pub_date in
  (year = None → publication_date a = "Date not available") ∧
  (has_text year = false → publication_date a = "Date not available") ∧
  (has_text year = true → has_text month = false →
     publication_date a = text_of year) ∧
  (has_text year = true → has_text month = true → has_text day = false →
     publication_date a = text_of year +:+ "-" +:+ text_of month) ∧
  (has_text year = true → has_text month = true → has_text day = true →
     publication_date a =
       text_of year +:+ "-" +:+ text_of month +:+ "-" +:+ text_of day).
Proof.
  intros Ha Hpd Hsome year month day.
  rewrite (returned_publication_date id root article a Ha Hsome).
  unfold pub_date_str. rewrite Hpd. unfold date_parts.
  fold year month day.
  repeat split.
  - intros Hy. by rewrite Hy.
  - intros Hy. by rewrite Hy.
  - intros Hy Hm. by rewrite Hy, Hm.
  - intros Hy Hm Hd. by rewrite Hy, Hm, Hd.
  - intros Hy Hm Hd. by rewrite Hy, Hm, Hd.
Qed.

(** C9: when the publication-date block itself is absent, the date of a
    returned article is the empty string and not the placeholder. *)
Theorem C9_absent_pub_date_block
    (id : string) (root article : ET.Element) (a : Article) :
  ET.find_desc "PubmedArticle" root = Some article →
  ET.find_desc "PubDate" article = None →
  get_article_details lower id (Document root) = Ok (Some a) →
  publication_date a = "" ∧ publication_date a ≠ "Date not available".
Proof.
  intros Ha Hpd Hsome.
  rewrite (returned_publication_date id root article a Ha Hsome).
  unfold pub_date_str. by rewrite Hpd.
Qed.

End PublicationDate.

(** The three dates of the design document. *)
Example publication_date_year_only :
  publication_date <$> paper_of Py.ascii_lower ("1", Document doc_year_only) = Some "2021".
Proof. reflexivity. Qed.

Example publication_date_full :
  publication_date <$> paper_of Py.ascii_lower ("1", Document doc_full_date)
  = Some "2021-06-15".
Proof. reflexivity. Qed.

Example publication_date_no_year :
  publication_date <$> paper_of Py.ascii_lower ("1", Document doc_no_year)
  = Some "Date not available".
Proof. reflexivity. Qed.

(** The amended C4 on a record dated 2021-06-15. *)
Lemma C4_witness_full_date :
  ∃ article pub_date a,
    ET.find_desc "PubmedArticle" doc_full_date = Some article ∧
    ET.find_desc "PubDate" article = Some pub_date ∧
    get_article_details Py.ascii_lower "1" (Document doc_full_date) = Ok (Some a) ∧
    has_text (ET.find "Year" pub_date) = true ∧
    has_text (ET.find "Month" pub_date) = true ∧
    has_text (ET.find "Day" pub_date) = true ∧
    publication_date a = "2021-06-15".
Proof.
  eexists _, _, _. do 6 (split; [reflexivity|]).
  refine (proj2 (proj2 (proj2 (proj2
    (C4_publication_date_nested Py.ascii_lower "1" doc_full_date _ _ _
       eq_refl eq_refl eq_refl)))) eq_refl eq_refl eq_refl).
Defined.

(** C4 as stated fails: this record has no Year element at all, and the
    returned date is not the placeholder. *)
Lemma C4_counterexample_no_pub_date :
  ∃ article a,
    ET.find_desc "PubmedArticle" doc_no_pub_date = Some article ∧
    ET.findall_desc "Year" article = [] ∧
    get_article_details Py.ascii_lower "1" (Document doc_no_pub_date) = Ok (Some a) ∧
    publication_date a ≠ "Date not available".
Proof.
  eexists _, _. repeat split; [reflexivity..|]. vm_compute. discriminate.
Qed.

(** C9 on a record without publication-date block. *)
Lemma C9_witness_no_pub_date :
  ∃ article a,
    ET.find_desc "PubmedArticle" doc_no_pub_date = Some article ∧
    ET.find_desc "PubDate" article = None ∧
    get_article_details Py.ascii_lower "1" (Document doc_no_pub_date) = Ok (Some a) ∧
    publication_date a = "" ∧ publication_date a ≠ "Date not available".
Proof.
  eexists _, _. do 3 (split; [reflexivity|]).
  apply (C9_absent_pub_date_block Py.ascii_lower "1" doc_no_pub_date _ _
           eq_refl eq_refl eq_refl).
Defined.

(** ** The batch loop *)

Section Batch.

Variable lower : string -> string.

Lemma main_loop_omap batch : ∀ papers,
  main_loop lower papers batch = papers ++ omap (paper_of lower) batch.
Proof.
  induction batch as [|[id resp] rest IH]; intros papers.
  - simpl. by rewrite app_nil_r.
  - cbn [main_loop omap list_omap]. unfold paper_of at 1. cbn [fst snd].
    destruct (get_article_details lower id resp) as [[paper|]|x];
      rewrite IH; [|done..].
    by rewrite <- app_assoc.
Qed.

Lemma paper_of_raise id resp x :
  get_article_details_try lower id resp = Raise x → paper_of lower (id, resp) = None.
Proof.
  intros H. unfold paper_of, get_article_details. simpl. by rewrite H.
Qed.

Lemma paper_of_missing_block id root :
  missing_block root → paper_of lower (id, Document root) = None.
Proof.
  unfold missing_block, paper_of, get_article_details, get_article_details_try.
  simpl. destruct (ET.find_desc "PubmedArticle" root) as [article|]; [|done].
  destruct (ET.find_desc "Article" article) as [article_data|]; [|done].
  intros [H|H]; [done|by rewrite H].
Qed.

(** C3: the batch loop returns, for every batch, the accumulated papers
    followed by the non-null results of the entries in input order, each
    entry contributing on its own (nothing is re-sorted or merged); an
    entry whose extraction raises or whose document lacks a required block
    contributes nothing and the loop result is the one of the batch
    without it. *)
Theorem C3_batch_never_aborts (papers : list Article) (batch : list (string * response)) :
  main_loop lower papers batch = papers ++ omap (paper_of lower) batch ∧
  (∀ before id resp after,
     batch = before ++ (id, resp) :: after →
     (∃ x, get_article_details_try lower id resp = Raise x) ∨
     (∃ root, resp = Document root ∧ missing_block root) →
     paper_of lower (id, resp) = None ∧
     main_loop lower papers batch = main_loop lower papers (before ++ after)).
Proof.
  split; [apply main_loop_omap|].
  intros before id resp after -> Hfail.
  assert (Hnone : paper_of lower (id, resp) = None).
  { destruct Hfail as [[x Hx]|(root & -> & Hroot)].
    - by apply (paper_of_raise _ _ x).
    - by apply paper_of_missing_block. }
  split; [done|].
  rewrite !main_loop_omap, !omap_app. cbn [omap list_omap]. by rewrite Hnone.
Qed.

End Batch.

(** The sample batch: the three failing entries are skipped, and the
    article fetched twice appears twice, first and last. *)
Example sample_batch_result :
  pubmed_id <$> main_loop Py.ascii_lower [] sample_batch = ["11"; "15"; "11"].
Proof. reflexivity. Qed.

(** C3 on the sample batch, at the entry that raises. *)
Lemma C3_witness_sample_batch :
  get_article_details_try Py.ascii_lower "13" (Document doc_no_affiliation_text)
    = Raise AttributeError ∧
  paper_of Py.ascii_lower ("13", Document doc_no_affiliation_text) = None ∧
  main_loop Py.ascii_lower [] sample_batch =
  main_loop Py.ascii_lower []
    (take 2 sample_batch ++ drop 3 sample_batch).
Proof.
  split; [reflexivity|].
  apply (proj2 (C3_batch_never_aborts Py.ascii_lower [] sample_batch)
           (take 2 sample_batch) "13" (Document doc_no_affiliation_text)
           (drop 3 sample_batch) eq_refl).
  left. by exists AttributeError.
Defined.

(** ** Evaluation on the sample records *)

(** C10: a retained article whose [corresponding_emails] holds the e-mail
    of an author that is in [all_authors] and not in [industry_authors]:
    the academic corresponding author of [doc_industry_academic]. *)
Theorem C10_emails_of_non_industry_authors :
  ∃ a au x,
    get_article_details Py.ascii_lower "1" (Document doc_industry_academic) = Ok (Some a) ∧
    au ∈ all_authors a ∧
    (au ∉ industry_authors a) ∧
    email au = Some x ∧
    x ∈ corresponding_emails a.
Proof.
  eexists _,
    {| name := "Rick Roe";
       affiliation := Some "Harvard University, Boston. rick@harvard.edu";
       email := Some "rick@harvard.edu";
       is_corresponding := true |},
    "rick@harvard.edu".
  split; [reflexivity|]. split; [|split; [|split]].
  - vm_compute. right. left.
  - apply (bool_decide_eq_false_1 _). vm_compute. reflexivity.
  - reflexivity.
  - vm_compute. left.
Qed.

(** C5, at the record that breaks it: an author with both names whose
    [AffiliationInfo] block has no [Affiliation] child makes
    [parse_author] raise; the exception leaves the author loop, and the
    article is dropped although its other author is extracted on its own
    and classifies as industry. *)
Lemma C5_missing_affiliation_text_raises :
  has_names no_affiliation_text = true ∧
  parse_author Py.ascii_lower no_affiliation_text = Raise AttributeError ∧
  author_loop Py.ascii_lower acc_init [jane; no_affiliation_text] = Raise AttributeError ∧
  get_article_details Py.ascii_lower "1" (Document doc_no_affiliation_text) = Ok None ∧
  ∃ au, parse_author Py.ascii_lower jane = Ok (Some au) ∧
        is_industry_affiliation Py.ascii_lower (affiliation au) = true.
Proof.
  do 4 (split; [reflexivity|]). eexists. split; reflexivity.
Qed.

(** The corresponding flag on the sample authors: by neither mark, by the
    [ValidYN] attribute, and by the affiliation text. *)
Example is_corresponding_samples :
  (λ e, match parse_author Py.ascii_lower e with
        | Ok (Some au) => Some (is_corresponding au)
        | _ => None
        end) <$> [jane; rick; rita]
  = [Some false; Some true; Some true].
Proof. reflexivity. Qed.

(** C8 on the author marked as corresponding in the affiliation text. *)
Lemma C8_witness_affiliation_text :
  ∃ au,
    parse_author Py.ascii_lower rita = Ok (Some au) ∧
    read_affiliation rita = Ok (affiliation au) ∧
    (is_corresponding au = true ↔
       ET.attrib rita !! "ValidYN" = Some "Y" ∨
       Py.str_in "corresponding"
         (Py.ascii_lower (Py.or_empty (affiliation au))) = true).
Proof.
  eexists. split; [reflexivity|].
  apply (C8_is_corresponding_iff Py.ascii_lower rita _ eq_refl).
Defined.

(** Two corresponding authors with one e-mail give one entry. *)
Example shared_email_once :
  corresponding_emails <$> paper_of Py.ascii_lower ("1", Document doc_shared_email)
  = Some ["rick@harvard.edu"].
Proof. reflexivity. Qed.

(** C7 on the article whose two corresponding authors share an e-mail. *)
Lemma C7_witness_shared_email :
  ∃ a,
    get_article_details Py.ascii_lower "1" (Document doc_shared_email) = Ok (Some a) ∧
    NoDup (corresponding_emails a) ∧
    (∀ x, x ∈ corresponding_emails a ↔
          ∃ au, au ∈ all_authors a ∧ is_corresponding au = true ∧ email au = Some x).
Proof.
  eexists. split; [reflexivity|].
  apply (C7_corresponding_emails_exact Py.ascii_lower "1" (Document doc_shared_email) _ eq_refl).
Defined.

(** The record without fore-name leaves no trace among the authors. *)
Example nameless_not_listed :
  (λ a, name <$> all_authors a) <$> paper_of Py.ascii_lower ("1", Document doc_nameless)
  = Some ["Jane Doe"; "Rick Roe"].
Proof. reflexivity. Qed.

(** C6 on the record without fore-name. *)
Lemma C6_witness_nameless :
  ET.find "ForeName" nameless = None ∧
  parse_author Py.ascii_lower nameless = Ok None ∧
  (∀ acc before after,
     author_loop Py.ascii_lower acc (before ++ nameless :: after) =
     author_loop Py.ascii_lower acc (before ++ after)) ∧
  (∀ id root article a,
     ET.find_desc "PubmedArticle" root = Some article →
     get_article_details Py.ascii_lower id (Document root) = Ok (Some a) →
     (nameless ∉ List.filter has_names (ET.findall_desc "Author" article)) ∧
     Forall2 (λ r au, parse_author Py.ascii_lower r = Ok (Some au))
             (List.filter has_names (ET.findall_desc "Author" article))
             (all_authors a)).
Proof.
  split; [reflexivity|].
  apply (C6_nameless_author_dropped Py.ascii_lower nameless). right. reflexivity.
Defined.

(** * Further properties of the code *)

(** ** Strings *)

Local Arguments String.append !_ _ / : simpl nomatch.

Lemma str_app_assoc (a b c : string) : (a +:+ b) +:+ c = a +:+ b +:+ c.
Proof. induction a as [|x a IH]; simpl; congruence. Qed.

Lemma str_app_nil_r (a : string) : a +:+ "" = a.
Proof. induction a as [|x a IH]; simpl; congruence. Qed.

Lemma str_length_app (a b : string) :
  String.length (a +:+ b) = String.length a + String.length b.
Proof. induction a as [|x a IH]; simpl; congruence. Qed.

Lemma str_length_nil (a : string) : String.length a = 0 → a = "".
Proof. by destruct a. Qed.

Lemma startswith_prefix needle hay :
  Py.startswith needle hay = true ↔ ∃ post, hay = needle +:+ post.
Proof.
  revert hay. induction needle as [|a n IH]; intros hay; simpl.
  - split; [intros _; by exists hay|done].
  - destruct hay as [|b h].
    + split; [done|]. by intros [post [=]].
    + destruct (Ascii.eqb a b) eqn:E.
      * apply Ascii.eqb_eq in E as ->. rewrite IH. split.
        -- intros [post ->]. by exists post.
        -- intros [post [= ->]]. by exists post.
      * apply Ascii.eqb_neq in E. split; [done|]. intros [post [= ? _]]. done.
Qed.

(** [needle in hay] holds exactly when [hay] is some text, [needle], some
    text. *)
Lemma str_in_substring needle hay :
  Py.str_in needle hay = true ↔ ∃ pre post, hay = pre +:+ needle +:+ post.
Proof.
  induction hay as [|b h IH]; simpl; rewrite orb_true_iff, startswith_prefix.
  - split.
    + intros [[post H]|]; [|done]. by exists "", post.
    + intros ([|x pre] & post & H); [|done]. left. by exists post.
  - rewrite IH. split.
    + intros [[post H]|(pre & post & ->)].
      * by exists "", post.
      * by exists (String b pre), post.
    + intros ([|x pre] & post & H).
      * left. by exists post.
      * right. injection H as -> ->. by exists pre, post.
Qed.

Lemma str_in_trans a b c :
  Py.str_in a b = true → Py.str_in b c = true → Py.str_in a c = true.
Proof.
  rewrite !str_in_substring.
  intros (p1 & q1 & ->) (p2 & q2 & ->).
  exists (p2 +:+ p1), (q1 +:+ q2). by rewrite !str_app_assoc.
Qed.

(** ** The pattern matcher against the declarative reading *)

Lemma all_in_app c a b : all_in c (a +:+ b) = all_in c a && all_in c b.
Proof.
  induction a as [|x a IH]; simpl; [done|]. by rewrite IH, andb_assoc.
Qed.

Lemma repeat_greedy_sound c n k : ∀ s taken m,
  Re.repeat_greedy c n k taken s = Some m →
  ∃ r m' rest,
    m = r +:+ m' ∧ s = r +:+ rest ∧ all_in c r = true ∧
    (n ≤ taken + String.length r)%nat ∧ k rest = Some m'.
Proof.
  induction s as [|x s IH]; intros taken m; simpl.
  - destruct (n <=? taken)%nat eqn:Hn; [|done]. apply Nat.leb_le in Hn.
    intros Hk. exists "", m, "". simpl. repeat split; first [done|lia].
  - assert (Hstop : (if (n <=? taken)%nat then k (String x s) else None) = Some m →
      ∃ r m' rest, m = r +:+ m' ∧ String x s = r +:+ rest ∧ all_in c r = true ∧
                   (n ≤ taken + String.length r)%nat ∧ k rest = Some m').
    { destruct (n <=? taken)%nat eqn:Hn; [|done]. apply Nat.leb_le in Hn.
      intros Hk. exists "", m, (String x s). simpl. repeat split; first [done|lia]. }
    destruct (c x) eqn:Hc; [|done].
    destruct (Re.repeat_greedy c n k (S taken) s) as [m1|] eqn:Hrec; [|done].
    intros [= <-]. destruct (IH _ _ Hrec) as (r & m' & rest & -> & -> & Hall & Hlen & Hk).
    exists (String x r), m', rest. simpl. rewrite Hc, Hall.
    repeat split; first [done|lia].
Qed.

Lemma repeat_greedy_complete c n k : ∀ r taken rest,
  all_in c r = true → (n ≤ taken + String.length r)%nat → is_Some (k rest) →
  is_Some (Re.repeat_greedy c n k taken (r +:+ rest)).
Proof.
  induction r as [|x r IH]; intros taken rest Hall Hlen Hk; simpl in *.
  - assert (Hn : (n <=? taken)%nat = true) by (apply Nat.leb_le; lia).
    destruct rest as [|y rest]; simpl; rewrite Hn; [done|].
    destruct (c y); [|done].
    by destruct (Re.repeat_greedy c n k (S taken) rest).
  - apply andb_true_iff in Hall as [-> Hall].
    destruct (IH (S taken) rest Hall ltac:(lia) Hk) as [m ->]. done.
Qed.

Lemma match_here_sound p : ∀ s m,
  Re.match_here p s = Some m → shape p m ∧ ∃ rest, s = m +:+ rest.
Proof.
  induction p as [|[c|n c] p IH]; intros s m; simpl.
  - intros [= <-]. split; [constructor|by exists s].
  - destruct s as [|x s]; [done|]. destruct (c x) eqn:Hc; [|done].
    destruct (Re.match_here p s) as [m'|] eqn:Hm; [|done].
    intros [= <-]. destruct (IH _ _ Hm) as [Hsh [rest ->]].
    split; [by constructor|by exists rest].
  - intros (r & m' & rest & -> & -> & Hall & Hlen & Hk)%repeat_greedy_sound.
    destruct (IH _ _ Hk) as [Hsh [rest' ->]].
    split; [constructor; [done|lia|done]|].
    exists rest'. by rewrite str_app_assoc.
Qed.

Lemma match_here_complete p m :
  shape p m → ∀ rest, is_Some (Re.match_here p (m +:+ rest)).
Proof.
  induction 1 as [|c p x m Hc _ IH|n c p r m Hall Hlen _ IH]; intros rest; simpl.
  - done.
  - rewrite Hc. by destruct (IH rest) as [m' ->].
  - rewrite str_app_assoc. apply repeat_greedy_complete; [done|lia|apply IH].
Qed.

(** [search] returns a piece of the text that has the shape of the
    pattern, and no piece starting further left has it. *)
Lemma search_sound p : ∀ s m,
  Re.search p s = Some m →
  shape p m ∧
  ∃ pre post, s = pre +:+ m +:+ post ∧
    ∀ pre' m' post', s = pre' +:+ m' +:+ post' → shape p m' →
                     (String.length pre ≤ String.length pre')%nat.
Proof.
  induction s as [|x s IH]; intros m; cbn [Re.search].
  - destruct (Re.match_here p "") as [m'|] eqn:Hm; [|done].
    intros [= <-]. destruct (match_here_sound _ _ _ Hm) as [Hsh [rest Hs]].
    split; [done|]. exists "", rest. split; [done|]. simpl. lia.
  - destruct (Re.match_here p (String x s)) as [m'|] eqn:Hm.
    + intros [= <-]. destruct (match_here_sound _ _ _ Hm) as [Hsh [rest Hs]].
      split; [done|]. exists "", rest. split; [done|]. simpl. lia.
    + intros (Hsh & pre & post & -> & Hleft)%IH. split; [done|].
      exists (String x pre), post. split; [done|].
      intros [|y pre'] m' post' Heq Hsh'.
      * simpl in Heq. destruct (match_here_complete p m' Hsh' post') as [m'' Hm''].
        rewrite <- Heq in Hm''. congruence.
      * injection Heq as -> Heq. simpl. apply le_n_S. by apply (Hleft pre' m' post').
Qed.

Lemma search_complete p m : shape p m →
  ∀ pre post, is_Some (Re.search p (pre +:+ m +:+ post)).
Proof.
  intros Hsh pre post. induction pre as [|x pre IH]; simpl "+:+".
  - destruct (match_here_complete p m Hsh post) as [m' Hm'].
    destruct (m +:+ post); cbn [Re.search]; by rewrite Hm'.
  - cbn [Re.search]. by destruct (Re.match_here p _).
Qed.

Lemma search_none p s :
  Re.search p s = None ↔ ∀ pre m post, s = pre +:+ m +:+ post → ¬ shape p m.
Proof.
  split.
  - intros Hnone pre m post -> Hsh.
    destruct (search_complete p m Hsh pre post) as [m' Hm']. congruence.
  - intros Hno. destruct (Re.search p s) as [m|] eqn:Hs; [|done].
    destruct (search_sound _ _ _ Hs) as (Hsh & pre & post & Heq & _).
    by destruct (Hno pre m post Heq).
Qed.

Lemma lit_true a x : Re.lit a x = true → x = a.
Proof. unfold Re.lit. by intros ->%Ascii.eqb_eq. Qed.

Lemma str_length_pos (a : string) : (1 ≤ String.length a)%nat ↔ a ≠ "".
Proof. destruct a; simpl; split; first [done|lia]. Qed.

Lemma shape_email m : shape EMAIL_PATTERN m ↔ email_shape m.
Proof.
  unfold EMAIL_PATTERN, email_shape. split.
  - intros H.
    inversion H as [| |n1 c1 p1 loc m1 Hloc Hn1 H1]; subst; clear H.
    inversion H1 as [|c2 p2 x2 m2 Hx2 H2|]; subst; clear H1.
    inversion H2 as [| |n3 c3 p3 dom m3 Hdom Hn3 H3]; subst; clear H2.
    inversion H3 as [|c4 p4 x4 m4 Hx4 H4|]; subst; clear H3.
    inversion H4 as [| |n5 c5 p5 tld m5 Htld Hn5 H5]; subst; clear H4.
    inversion H5; subst; clear H5.
    apply lit_true in Hx2 as ->. apply lit_true in Hx4 as ->.
    exists loc, dom, tld. rewrite str_app_nil_r.
    by rewrite <- !str_length_pos.
  - intros (loc & dom & tld & -> & Hl & Hlc & Hd & Hdc & Ht & Htc).
    apply str_length_pos in Hl, Hd.
    constructor; [done..|]. constructor; [done|].
    constructor; [done..|]. constructor; [done|].
    rewrite <- (str_app_nil_r tld). constructor; [done..|constructor].
Qed.

Lemma email_shape_nonempty m : email_shape m → m ≠ "".
Proof. intros (loc & dom & tld & -> & Hl & _). by destruct loc. Qed.

(** ** The e-mail of an extracted author *)

Section AuthorEmail.

Variable lower : string -> string.

(** X1: the e-mail of an extracted author has the shape
    [local@domain.tld] (non-empty local part over letters, digits and
    [._%+-], non-empty domain over letters, digits, dot and dash, a last
    label of at least two letters), it is a piece of the author's
    affiliation text, and no piece of that shape starts further left in the
    text. *)
Theorem X1_email_is_leftmost_address (e : ET.Element) (au : Author) (m : string) :
  parse_author lower e = Ok (Some au) →
  email au = Some m →
  email_shape m ∧
  ∃ txt pre post,
    affiliation au = Some txt ∧ txt = pre +:+ m +:+ post ∧
    ∀ pre' m' post', txt = pre' +:+ m' +:+ post' → email_shape m' →
                     (String.length pre ≤ String.length pre')%nat.
Proof.
  intros (_ & _ & _ & Hem)%parse_author_some Hm. rewrite Hm in Hem.
  destruct (affiliation au) as [txt|]; [|done].
  destruct (Py.truthy (Some txt)); [|done]. simpl in Hem. symmetry in Hem.
  destruct (search_sound _ _ _ Hem) as (Hsh & pre & post & Heq & Hleft).
  split; [by apply shape_email|].
  exists txt, pre, post. repeat split; [done|].
  intros pre' m' post' Heq' Hsh'. apply (Hleft pre' m' post' Heq').
  by apply shape_email.
Qed.

(** X2: an extracted author has no e-mail exactly when no piece of the
    affiliation text has the shape of an address (in particular when the
    text is absent or empty). *)
Theorem X2_email_none_iff_no_address (e : ET.Element) (au : Author) :
  parse_author lower e = Ok (Some au) →
  (email au = None ↔
   ∀ pre m post, Py.or_empty (affiliation au) = pre +:+ m +:+ post → ¬ email_shape m).
Proof.
  intros (_ & _ & _ & Hem)%parse_author_some. rewrite Hem.
  destruct (Py.truthy (affiliation au)) eqn:Ht.
  - rewrite search_none. split.
    + intros H pre m post Heq Hsh. apply (H pre m post Heq). by apply shape_email.
    + intros H pre m post Heq Hsh. apply (H pre m post Heq). by apply shape_email.
  - split; [|done]. intros _ pre m post Heq Hsh.
    apply email_shape_nonempty in Hsh.
    apply truthy_false in Ht as [Ht|Ht]; rewrite Ht in Heq; simpl in Heq;
      destruct pre, m; done.
Qed.

End AuthorEmail.

(** X1 on the first sample author. *)
Lemma X1_witness_jane :
  ∃ au m,
    parse_author Py.ascii_lower jane = Ok (Some au) ∧
    email au = Some m ∧
    email_shape m ∧
    ∃ txt pre post,
      affiliation au = Some txt ∧ txt = pre +:+ m +:+ post ∧
      ∀ pre' m' post', txt = pre' +:+ m' +:+ post' → email_shape m' →
                       (String.length pre ≤ String.length pre')%nat.
Proof.
  eexists _, _. split; [reflexivity|]. split; [reflexivity|].
  apply (X1_email_is_leftmost_address Py.ascii_lower jane _ _ eq_refl eq_refl).
Defined.

(** X2 on the sample author without affiliation block. *)
Lemma X2_witness_no_affiliation :
  ∃ au,
    parse_author Py.ascii_lower (raw_author ∅ "Ann" "Lee" None) = Ok (Some au) ∧
    (email au = None ↔
     ∀ pre m post, Py.or_empty (affiliation au) = pre +:+ m +:+ post → ¬ email_shape m).
Proof.
  eexists. split; [reflexivity|].
  apply (X2_email_none_iff_no_address Py.ascii_lower
           (raw_author ∅ "Ann" "Lee" None) _ eq_refl).
Defined.

(** ** Identifier and title of a returned article *)

Section ArticleFields.

Variable lower : string -> string.

Lemma returned_article_fields id root article a :
  ET.find_desc "PubmedArticle" root = Some article →
  get_article_details lower id (Document root) = Ok (Some a) →
  ∃ article_data,
    ET.find_desc "Article" article = Some article_data ∧
    pubmed_id a = id ∧
    title a = article_title article_data ∧
    doi a = doi_scan (Some "")
              (ET.findall_desc_child "ArticleIdList" "ArticleId" article).
Proof.
  intros Ha. unfold get_article_details, get_article_details_try. rewrite Ha.
  destruct (ET.find_desc "Article" article) as [article_data|]; [|done].
  destruct (ET.find_desc "MedlineCitation" article) as [medline|]; [|done].
  destruct (author_loop lower acc_init _) as [acc|x]; simpl; [|done].
  destruct (acc_industry acc); [done|].
  intros [= <-]. by exists article_data.
Qed.

Lemma doi_scan_none d ids :
  Forall (λ e, is_doi e = false) ids → doi_scan d ids = d.
Proof.
  induction 1 as [|e ids He _ IH]; simpl; [done|].
  unfold is_doi in He. by rewrite He.
Qed.

Lemma doi_scan_first d before e after :
  Forall (λ e, is_doi e = false) before → is_doi e = true →
  doi_scan d (before ++ e :: after) = ET.text e.
Proof.
  intros Hb He. induction Hb as [|b before Hb _ IH]; simpl.
  - unfold is_doi in He. by rewrite He.
  - unfold is_doi in Hb. by rewrite Hb.
Qed.

(** X3: the [doi] of a returned article is the text of the first
    [ArticleIdList/ArticleId] element, in document order, whose [IdType]
    is [doi] (later ones are ignored, and the value is [None] when that
    element has no text); it is the empty string when no element has that
    type. *)
Theorem X3_doi_is_first_tagged
    (id : string) (root article : ET.Element) (a : Article) :
  ET.find_desc "PubmedArticle" root = Some article →
  get_article_details lower id (Document root) = Ok (Some a) →
  let ids := ET.findall_desc_child "ArticleIdList" "ArticleId" article in
  (Forall (λ e, is_doi e = false) ids → doi a = Some "") ∧
  (∀ before e after,
     ids = before ++ e :: after →
     Forall (λ e, is_doi e = false) before → is_doi e = true →
     doi a = ET.text e).
Proof.
  intros Ha Hsome ids.
  destruct (returned_article_fields id root article a Ha Hsome)
    as (article_data & _ & _ & _ & Hdoi).
  fold ids in Hdoi. rewrite Hdoi. split.
  - apply doi_scan_none.
  - intros before e after -> Hb He. by apply doi_scan_first.
Qed.

Lemma text_item_alone o : Py.join " " (ET.text_item o) = Py.or_empty o.
Proof. by destruct o as [[|c s]|]. Qed.

(** X4: the [title] of a returned article is the placeholder when the
    [Article] block has no [ArticleTitle]; for a title element without
    child elements it is the element's text, the empty string when the
    element is empty; and for a title with one piece of inline markup the
    text before, inside and after the markup are joined by single
    spaces. *)
Theorem X4_title_of_returned_article
    (id : string) (root article article_data : ET.Element) (a : Article) :
  ET.find_desc "PubmedArticle" root = Some article →
  ET.find_desc "Article" article = Some article_data →
  get_article_details lower id (Document root) = Ok (Some a) →
  (ET.find_desc "ArticleTitle" article_data = None →
     title a = "No title available") ∧
  (∀ t, ET.find_desc "ArticleTitle" article_data = Some t →
        ET.children t = [] → title a = Py.or_empty (ET.text t)) ∧
  (∀ t t0 tg attrs t1 t2,
     ET.find_desc "ArticleTitle" article_data = Some t →
     ET.text t = Some t0 → t0 ≠ "" → t1 ≠ "" → t2 ≠ "" →
     ET.children t = [ET.Elem tg attrs (Some t1) [] (Some t2)] →
     title a = t0 +:+ " " +:+ t1 +:+ " " +:+ t2).
Proof.
  intros Ha Hd Hsome.
  destruct (returned_article_fields id root article a Ha Hsome)
    as (article_data' & Hd' & _ & Ht & _).
  rewrite Hd in Hd'. injection Hd' as <-. rewrite Ht. unfold article_title.
  split; [|split].
  - by intros ->.
  - intros t -> Hc. destruct t as [tg at' tx cs tl]. simpl in Hc. subst cs.
    simpl. rewrite app_nil_r. apply text_item_alone.
  - intros t t0 tg attrs t1 t2 -> Htx H0 H1 H2 Hc.
    destruct t as [tg' at' tx cs tl]. simpl in Htx, Hc. subst tx cs.
    destruct t0, t1, t2; done.
Qed.

End ArticleFields.

(** X3 on a record with one pubmed and two doi identifiers. *)
Lemma X3_witness_two_dois :
  ∃ article a,
    ET.find_desc "PubmedArticle" doc_with_ids = Some article ∧
    get_article_details Py.ascii_lower "123" (Document doc_with_ids) = Ok (Some a) ∧
    ET.findall_desc_child "ArticleIdList" "ArticleId" article =
      [article_id "pubmed" "123"] ++ article_id "doi" "10.1000/x1"
        :: [article_id "doi" "10.1000/x2"] ∧
    doi a = Some "10.1000/x1".
Proof.
  eexists _, _. do 3 (split; [reflexivity|]).
  refine (proj2 (X3_doi_is_first_tagged Py.ascii_lower "123" doc_with_ids _ _
                   eq_refl eq_refl)
            [article_id "pubmed" "123"] (article_id "doi" "10.1000/x1")
            [article_id "doi" "10.1000/x2"] eq_refl _ eq_refl).
  by repeat constructor.
Defined.

(** X4 on the record whose title has inline markup. *)
Lemma X4_witness_markup_title :
  ∃ article article_data a,
    ET.find_desc "PubmedArticle" doc_markup_title = Some article ∧
    ET.find_desc "Article" article = Some article_data ∧
    get_article_details Py.ascii_lower "1" (Document doc_markup_title) = Ok (Some a) ∧
    title a = "Effect of in vivo dosing".
Proof.
  eexists _, _, _. do 3 (split; [reflexivity|]).
  refine (proj2 (proj2 (X4_title_of_returned_article Py.ascii_lower "1"
                   doc_markup_title _ _ _ eq_refl eq_refl eq_refl))
            _ "Effect of" "i" ∅ "in vivo" "dosing" eq_refl eq_refl _ _ _ eq_refl);
    done.
Defined.

(** ** One raising author record *)

Section RaisingAuthor.

Variable lower : string -> string.

(** When the loop completes, every record was extracted without raising. *)
Lemma author_loop_total_inv elems : ∀ acc acc',
  author_loop lower acc elems = Ok acc' →
  ∀ e, e ∈ elems → ∃ o, parse_author lower e = Ok o.
Proof.
  induction elems as [|e rest IH]; intros acc acc' Hl e' He'.
  - by apply elem_of_nil in He'.
  - simpl in Hl. unfold author_step at 1 in Hl.
    destruct (parse_author lower e) as [o|y] eqn:Hp; simpl in Hl; [|done].
    apply elem_of_cons in He' as [->|He']; [by exists o|].
    destruct o; simpl in Hl; by eapply IH.
Qed.

(** X17: the author loop raises exactly when one of the records raises;
    the exception is the one of the first such record, and the records
    after it are not looked at. *)
Theorem X17_author_loop_raises_iff elems : ∀ acc x,
  author_loop lower acc elems = Raise x ↔
  ∃ before e after,
    elems = before ++ e :: after ∧
    parse_author lower e = Raise x ∧
    ∀ b, b ∈ before → ∀ y, parse_author lower b ≠ Raise y.
Proof.
  induction elems as [|e rest IH]; intros acc x; simpl.
  - split; [done|]. intros ([|] & ? & ? & ? & _); done.
  - unfold author_step at 1.
    destruct (parse_author lower e) as [o|y] eqn:Hp; simpl.
    + assert (∃ acc1,
        (match o with
         | Some author =>
             Ok {| acc_authors := acc_authors acc ++ [author];
                   acc_industry :=
                     if is_industry_affiliation lower (affiliation author)
                     then acc_industry acc ++ [author] else acc_industry acc;
                   acc_emails :=
                     if is_corresponding author && Py.truthy (email author)
                     then acc_emails acc ∪ {[Py.or_empty (email author)]}
                     else acc_emails acc |}
         | None => Ok acc
         end) = Ok acc1) as [acc1 ->] by (destruct o; eauto).
      simpl. rewrite IH. split.
      * intros (before & e' & after & -> & He' & Hb).
        exists (e :: before), e', after. repeat split; [done|].
        intros b [->|Hin]%elem_of_cons y; [congruence|by apply Hb].
      * intros ([|b before] & e' & after & Heq & He' & Hb);
          injection Heq as <- ->; [congruence|].
        exists before, e', after. repeat split; [done|].
        intros b' Hb'. apply Hb. by right.
    + split.
      * intros [= <-]. exists [], e, rest. repeat split; [done|].
        intros b Hb. by apply elem_of_nil in Hb.
      * intros ([|b before] & e' & after & Heq & He' & Hb);
          injection Heq as <- ->.
        -- congruence.
        -- by destruct (Hb e (list_elem_of_here _ _) y).
Qed.

(** X5: a document in which some [Author] element has both names and an
    [AffiliationInfo] block without [Affiliation] child yields [None],
    whatever its other authors are. *)
Theorem X5_unreadable_affiliation_drops_article
    (id : string) (root article e info : ET.Element) :
  ET.find_desc "PubmedArticle" root = Some article →
  e ∈ ET.findall_desc "Author" article →
  has_names e = true →
  ET.find "AffiliationInfo" e = Some info →
  ET.find "Affiliation" info = None →
  get_article_details lower id (Document root) = Ok None.
Proof.
  intros Ha Hin Hn Hi Hno.
  pose proof (parse_author_raises lower e info Hn Hi Hno) as Hraise.
  unfold get_article_details, get_article_details_try. rewrite Ha.
  destruct (ET.find_desc "Article" article); [|done].
  destruct (ET.find_desc "MedlineCitation" article); [|done].
  destruct (author_loop lower acc_init _) as [acc|x] eqn:Hl; [|done].
  exfalso. destruct (author_loop_total_inv _ _ _ Hl e Hin) as [o Ho].
  congruence.
Qed.

End RaisingAuthor.

(** X5 on the sample record whose second author has no affiliation text. *)
Lemma X5_witness_no_affiliation_text :
  ∃ article info,
    ET.find_desc "PubmedArticle" doc_no_affiliation_text = Some article ∧
    no_affiliation_text ∈ ET.findall_desc "Author" article ∧
    has_names no_affiliation_text = true ∧
    ET.find "AffiliationInfo" no_affiliation_text = Some info ∧
    ET.find "Affiliation" info = None ∧
    get_article_details Py.ascii_lower "1" (Document doc_no_affiliation_text) = Ok None.
Proof.
  eexists _, _. split; [reflexivity|].
  assert (Hin : no_affiliation_text ∈ ET.findall_desc "Author"
                 (node "PubmedArticle"
                    [node "MedlineCitation"
                       [node "Article" [node "AuthorList" [jane; no_affiliation_text]]]])).
  { vm_compute. right. left. }
  split; [exact Hin|]. do 3 (split; [reflexivity|]).
  exact (X5_unreadable_affiliation_drops_article Py.ascii_lower "1"
           doc_no_affiliation_text _ no_affiliation_text _
           eq_refl Hin eq_refl eq_refl eq_refl).
Defined.

(** ** The output of the batch loop *)

Section BatchOutput.

Variable lower : string -> string.

Lemma paper_of_some id resp p :
  paper_of lower (id, resp) = Some p →
  get_article_details lower id resp = Ok (Some p) ∧ pubmed_id p = id.
Proof.
  unfold paper_of. simpl.
  destruct (get_article_details lower id resp) as [r|x] eqn:Hg; [|done].
  intros ->. split; [done|].
  destruct (get_article_details_some lower id resp p Hg)
    as (root & article & acc & -> & Ha & _).
  by destruct (returned_article_fields lower id root article p Ha Hg)
    as (_ & _ & Hid & _).
Qed.

(** X6: every paper the loop of [main] collects is the result of
    [get_article_details] for an entry of the batch and carries the id of
    that entry, and the ids of the collected papers, in order, are a
    sublist of the ids of the batch. *)
Theorem X6_output_ids_sublist_of_batch (batch : list (string * response)) :
  (∀ p, p ∈ main_loop lower [] batch →
        ∃ resp, (pubmed_id p, resp) ∈ batch ∧
                get_article_details lower (pubmed_id p) resp = Ok (Some p)) ∧
  pubmed_id <$> main_loop lower [] batch `sublist_of` batch.*1.
Proof.
  rewrite main_loop_omap. simpl. split.
  - intros p ([id resp] & Hin & Hp)%list_elem_of_omap.
    apply paper_of_some in Hp as [Hg <-]. by exists resp.
  - induction batch as [|[id resp] rest IH]; simpl; [constructor|].
    destruct (paper_of lower (id, resp)) as [p|] eqn:Hp; simpl.
    + apply paper_of_some in Hp as [_ ->]. by constructor.
    + by constructor.
Qed.

End BatchOutput.

(** ** The rows of the report *)

Lemma join_nonempty sep x rest : x ≠ "" → Py.join sep (x :: rest) ≠ "".
Proof. destruct x; [done|]. by destruct rest. Qed.

Lemma row_authors_loop_spec authors : ∀ names affiliations,
  (row_authors_loop names affiliations authors).1 = names ++ (name <$> authors) ∧
  ∀ x, x ∈ (row_authors_loop names affiliations authors).2 ↔
       x ∈ affiliations ∨
       ∃ au, au ∈ authors ∧ affiliation au = Some x ∧ x ≠ "".
Proof.
  induction authors as [|au rest IH]; intros names affiliations; simpl.
  - rewrite app_nil_r. split; [done|]. intros x. split; [by left|].
    intros [|(au & []%elem_of_nil & _)]; done.
  - destruct (IH (names ++ [name au])
               (if Py.truthy (affiliation au)
                then affiliations ∪ {[Py.or_empty (affiliation au)]}
                else affiliations)) as [Hn Ha].
    rewrite Hn, <- app_assoc. split; [done|]. intros x. rewrite Ha. split.
    + intros [Hx|(au' & Hin & Hx)].
      * destruct (affiliation au) as [[|c t]|] eqn:Haff; simpl in Hx; auto.
        apply elem_of_union in Hx as [Hx|Hx%elem_of_singleton]; [by left|].
        subst x. right. exists au. split; [left|done].
      * right. exists au'. split; [by right|done].
    + intros [Hx|(au' & [->|Hin]%elem_of_cons & Haff & Hne)].
      * left. destruct (Py.truthy (affiliation au)); set_solver.
      * left. rewrite Haff. destruct x; [done|]. set_solver.
      * right. by exists au'.
Qed.

Section Report.

Variable lower : string -> string.

Lemma parse_author_name e au :
  parse_author lower e = Ok (Some au) → name au ≠ "".
Proof.
  unfold parse_author.
  destruct (ET.find "LastName" e) as [l|], (ET.find "ForeName" e) as [f|]; try done.
  destruct (read_affiliation e); simpl; [|done].
  intros [= <-]. simpl. by destruct (Py.format (ET.text f)).
Qed.

Lemma industry_truthy (aff : option string) :
  is_industry_affiliation lower aff = true → Py.truthy aff = true.
Proof. unfold is_industry_affiliation. by destruct (Py.truthy aff). Qed.

(** X7: the names collected for a row are the names of the paper's
    industry authors in order, repeats included, and the affiliations
    collected are exactly the distinct non-empty affiliation texts of those
    authors. *)
Theorem X7_row_names_and_affiliations (paper : Article) :
  (row_authors_loop [] ∅ (industry_authors paper)).1
    = name <$> industry_authors paper ∧
  NoDup (elements (row_authors_loop [] ∅ (industry_authors paper)).2) ∧
  ∀ x, x ∈ elements (row_authors_loop [] ∅ (industry_authors paper)).2 ↔
       ∃ au, au ∈ industry_authors paper ∧ affiliation au = Some x ∧ x ≠ "".
Proof.
  destruct (row_authors_loop_spec (industry_authors paper) [] ∅) as [Hn Ha].
  split; [done|]. split; [apply NoDup_elements|].
  intros x. rewrite elem_of_elements, Ha. split; [|by right].
  intros [Hx|]; [|done]. by apply elem_of_empty in Hx.
Qed.

(** X8: in the row of a paper returned by [get_article_details] the id
    column is the id the paper was fetched with, and neither the
    industry-author column nor the affiliation column is empty. *)
Theorem X8_row_of_returned_paper (id : string) (resp : response) (paper : Article) :
  get_article_details lower id resp = Ok (Some paper) →
  PubmedID (csv_row paper) = id ∧
  Non_academic_Authors (csv_row paper) ≠ "" ∧
  Company_Affiliations (csv_row paper) ≠ "".
Proof.
  intros Hsome.
  destruct (get_article_details_some lower id resp paper Hsome)
    as (root & article & acc & -> & Ha & _).
  destruct (returned_article_fields lower id root article paper Ha Hsome)
    as (_ & _ & Hid & _).
  destruct (returned_article_authors lower id root article paper Ha Hsome)
    as (Hf & Hind & Hne & _).
  destruct (row_authors_loop_spec (industry_authors paper) [] ∅) as [Hn Haff].
  destruct (industry_authors paper) as [|au rest] eqn:Hia; [done|].
  assert (Hau : au ∈ List.filter
            (λ au, is_industry_affiliation lower (affiliation au)) (all_authors paper))
    by (rewrite <- Hind; left).
  apply elem_of_bool_filter in Hau as [Hall Hi].
  destruct (Forall2_elem_of_right _ _ _ _ Hf Hall) as (e & _ & Hp).
  split; [done|]. unfold csv_row. rewrite Hia. cbn [Non_academic_Authors Company_Affiliations].
  split.
  - rewrite Hn, app_nil_l, fmap_cons. apply join_nonempty.
    by apply (parse_author_name e).
  - apply industry_truthy in Hi.
    destruct (affiliation au) as [[|c t]|] eqn:Hat; try done.
    assert (Hin : String c t ∈ elements (row_authors_loop [] ∅ (au :: rest)).2).
    { apply elem_of_elements, Haff. right. exists au. split; [left|done]. }
    destruct (elements _) as [|x xs] eqn:Hel; [by apply elem_of_nil in Hin|].
    apply join_nonempty.
    assert (Hx : x ∈ elements (row_authors_loop [] ∅ (au :: rest)).2)
      by (rewrite Hel; left).
    apply elem_of_elements, Haff in Hx as [Hx|(? & _ & _ & ?)]; [|done].
    by apply elem_of_empty in Hx.
Qed.

End Report.



(** X8 on the article with one industry and one academic author. *)
Lemma X8_witness_industry_academic :
  ∃ paper,
    get_article_details Py.ascii_lower "7" (Document doc_industry_academic)
      = Ok (Some paper) ∧
    PubmedID (csv_row paper) = "7" ∧
    Non_academic_Authors (csv_row paper) ≠ "" ∧
    Company_Affiliations (csv_row paper) ≠ "".
Proof.
  eexists. split; [reflexivity|].
  apply (X8_row_of_returned_paper Py.ascii_lower "7"
           (Document doc_industry_academic) _ eq_refl).
Defined.

(** The row of the sample article. *)
Example csv_row_sample :
  (λ p, (Non_academic_Authors (csv_row p), Company_Affiliations (csv_row p),
         Corresponding_Author_Email (csv_row p)))
    <$> paper_of Py.ascii_lower ("7", Document doc_industry_academic)
  = Some ("Jane Doe", "Pfizer Inc, New York. jane.doe@pfizer.com", "rick@harvard.edu").
Proof. reflexivity. Qed.

(** ** The search request and its reply *)






(** X12: [search_pubmed] returns a value exactly when the reply is a JSON
    object without an [error] key whose [esearchresult] is absent or
    itself an object; the value is then the [idlist] of that object, and
    the empty list when either is absent.  The parse failure is reported
    only for a body that is not JSON. *)
Theorem X12_search_result_returns (reply : search_reply) :
  (∀ ids, search_result reply = inr ids ↔
     ∃ m, reply = Reply (JDict m) ∧ m !! "error" = None ∧
          ((m !! "esearchresult" = None ∧ ids = JList []) ∨
           (∃ es, m !! "esearchresult" = Some (JDict es) ∧
                  ids = default (JList []) (es !! "idlist")))) ∧
  (search_result reply = inl FailedToParse ↔ reply = NotJson).
Proof.
  split.
  - intros ids. split.
    + destruct reply as [| |data]; try done. simpl.
      destruct data as [|b|lit|s|l|m]; simpl; try done.
      { by destruct (Py.str_in "error" s). }
      { by destruct (existsb _ l). }
      case_bool_decide as Herr; [done|].
      assert (m !! "error" = None) as Hnone
        by (destruct (m !! "error"); [by destruct Herr|done]).
      destruct (m !! "esearchresult") as [[|b|lit|s|l|es]|] eqn:Hes; simpl; try done.
      * intros [= <-]. exists m. repeat split; [done|]. right. by exists es.
      * intros [= <-]. exists m. repeat split; [done|]. by left.
    + intros (m & -> & Herr & Hcase). simpl. rewrite Herr.
      rewrite bool_decide_eq_false_2 by (by intros [? ?]).
      destruct Hcase as [[Hes ->]|(es & Hes & ->)]; by rewrite Hes.
  - destruct reply as [| |data]; try done. simpl. split; [|done].
    destruct (error_in data) as [[|]|]; [done| |done].
    destruct (py_get data _ _) as [es|]; [|done].
    by destruct (py_get es _ _).
Qed.

(** ** Date arguments *)

Lemma times_lang c k : ∀ hi lo s,
  Rx.times c lo hi k s = true ↔
  ∃ a b, s = a ++ b ∧ (lo ≤ length a ≤ hi)%nat ∧
         Forall (λ x, c x = true) a ∧ k b = true.
Proof.
  assert (Hstop : ∀ lo hi s,
    match lo with 0 => k s | S _ => false end = true →
    ∃ a b, s = a ++ b ∧ (lo ≤ length a ≤ hi)%nat ∧
           Forall (λ x, c x = true) a ∧ k b = true).
  { intros [|lo] hi s Hk; [|done]. exists [], s. simpl.
    repeat split; [lia..|constructor|done]. }
  induction hi as [|hi IH]; intros lo s.
  - simpl. split; [apply Hstop|].
    intros ([|x a] & b & -> & Hlen & _ & Hk); simpl in *; [|lia].
    by replace lo with 0 by lia.
  - destruct s as [|x s]; simpl.
    + split; [apply Hstop|].
      intros ([|x a] & b & Heq & Hlen & _ & Hk); [|done].
      simpl in *. subst b. by replace lo with 0 by lia.
    + rewrite orb_true_iff, andb_true_iff, IH. split.
      * intros [[Hc (a & b & -> & Hlen & Hall & Hk)]|Hk]; [|by apply Hstop].
        exists (x :: a), b. simpl. repeat split; [lia..|by constructor|done].
      * intros ([|y a] & b & Heq & Hlen & Hall & Hk); simpl in *.
        -- right. subst b. by replace lo with 0 by lia.
        -- left. injection Heq as <- ->. apply Forall_cons in Hall as [Hc Hall].
           split; [done|]. exists a, b. repeat split; [lia..|done|done].
Qed.

(** The matcher accepts exactly when the text starts with a piece the
    pattern matches and the continuation accepts the rest. *)
Lemma accepts_lang r : ∀ k s,
  Rx.accepts r k s = true ↔ ∃ a b, s = a ++ b ∧ Rx.lang r a ∧ k b = true.
Proof.
  induction r as [c|r1 IH1 r2 IH2|r IH|lo hi c]; intros k s; simpl.
  - destruct s as [|x s].
    + split; [done|]. intros (a & b & Heq & Hl & _). inversion Hl; subst. done.
    + rewrite andb_true_iff. split.
      * intros [Hc Hk]. exists [x], s. repeat split; [by constructor|done].
      * intros (a & b & Heq & Hl & Hk). inversion Hl; subst.
        by injection Heq as <- <-.
  - rewrite IH1. split.
    + intros (a & b & -> & Hl & (a' & b' & -> & Hl' & Hk)%IH2).
      exists (a ++ a'), b'. rewrite <- app_assoc. repeat split; [by constructor|done].
    + intros (a & b & -> & Hl & Hk). inversion Hl as [|? ? a1 a2 H1 H2| | |]; subst.
      exists a1, (a2 ++ b). rewrite <- app_assoc. repeat split; [done|].
      apply IH2. by exists a2, b.
  - rewrite orb_true_iff, IH. split.
    + intros [(a & b & -> & Hl & Hk)|Hk].
      * exists a, b. repeat split; [by constructor|done].
      * exists [], s. repeat split; [constructor|done].
    + intros (a & b & -> & Hl & Hk). inversion Hl; subst; [by right|].
      left. by exists a, b.
  - rewrite times_lang. split.
    + intros (a & b & -> & Hlen & Hall & Hk). exists a, b.
      repeat split; [by constructor|done].
    + intros (a & b & -> & Hl & Hk). inversion Hl; subst. by exists a, b.
Qed.

Ltac split_matches :=
  repeat match goal with
         | |- context [match ?x with _ => _ end] => destruct x
         end.

Lemma at_end_true s : Rx.at_end s = true ↔ s = [] ∨ s = [10%N].
Proof.
  split.
  - unfold Rx.at_end. split_matches; auto; done.
  - by intros [->| ->].
Qed.

Section Dates.

Variable digit : N → bool.

Lemma lang_times_digits lo hi a :
  Rx.lang (Rx.Times lo hi digit) a ↔ digits digit lo hi a.
Proof.
  split.
  - intros H. by inversion H; subst.
  - intros [Hlen Hall]. by constructor.
Qed.

Lemma lang_slash a : Rx.lang (Rx.Chr (N.eqb slash)) a ↔ a = [slash].
Proof.
  split.
  - intros H. inversion H as [c x Hx| | | |]; subst.
    by apply N.eqb_eq in Hx as <-.
  - intros ->. constructor. apply N.eqb_refl.
Qed.

Lemma lang_date a :
  Rx.lang (DATE_PATTERN digit) a ↔
  ∃ y md, a = y ++ md ∧ digits digit 4 4 y ∧
    (md = [] ∨
     ∃ m dd, md = slash :: m ++ dd ∧ digits digit 1 2 m ∧
             (dd = [] ∨ ∃ d, dd = slash :: d ∧ digits digit 1 2 d)).
Proof.
  unfold DATE_PATTERN. split.
  - intros H. inversion H as [|? ? y md Hy Hmd| | |]; subst; clear H.
    apply lang_times_digits in Hy. exists y, md. do 2 (split; [done|]).
    inversion Hmd as [| | |? ? Hmd'|]; subst; clear Hmd; [by left|right].
    inversion Hmd' as [|? ? s1 rest Hs1 Hrest| | |]; subst; clear Hmd'.
    apply lang_slash in Hs1 as ->.
    inversion Hrest as [|? ? m dd Hm Hdd| | |]; subst; clear Hrest.
    apply lang_times_digits in Hm. exists m, dd. do 2 (split; [done|]).
    inversion Hdd as [| | |? ? Hdd'|]; subst; clear Hdd; [by left|right].
    inversion Hdd' as [|? ? s2 d Hs2 Hd| | |]; subst; clear Hdd'.
    apply lang_slash in Hs2 as ->. apply lang_times_digits in Hd.
    by exists d.
  - intros (y & md & -> & Hy & Hmd). constructor; [by apply lang_times_digits|].
    destruct Hmd as [->|(m & dd & -> & Hm & Hdd)]; [constructor|].
    apply Rx.lang_opt_some.
    apply (Rx.lang_seq _ _ [slash] (m ++ dd)); [by apply lang_slash|].
    constructor; [by apply lang_times_digits|].
    destruct Hdd as [->|(d & -> & Hd)]; [constructor|].
    apply Rx.lang_opt_some.
    apply (Rx.lang_seq _ _ [slash] d); [by apply lang_slash|].
    by apply lang_times_digits.
Qed.

Lemma is_valid_date_shape s :
  is_valid_date digit s = true ↔ date_shape digit s.
Proof.
  unfold is_valid_date, date_shape. rewrite accepts_lang. split.
  - intros (a & b & -> & (y & md & -> & Hy & Hmd)%lang_date & Hb%at_end_true).
    exists y, md, b. by rewrite <- app_assoc.
  - intros (y & md & nl & -> & Hy & Hmd & Hnl).
    exists (y ++ md), nl. rewrite <- app_assoc. repeat split; [|by apply at_end_true].
    apply lang_date. by exists y, md.
Qed.

(** X13: [is_valid_date] accepts exactly the strings made of four decimal
    digits, optionally followed by a slash and one or two digits,
    optionally followed by another slash and one or two digits, with or
    without one final newline; months and days are not range-checked. *)
Theorem X13_is_valid_date_shape (s : list N) :
  is_valid_date digit s = true ↔
  ∃ y md nl,
    s = y ++ md ++ nl ∧ digits digit 4 4 y ∧
    (md = [] ∨
     ∃ m dd, md = slash :: m ++ dd ∧ digits digit 1 2 m ∧
             (dd = [] ∨ ∃ d, dd = slash :: d ∧ digits digit 1 2 d)) ∧
    (nl = [] ∨ nl = [10%N]).
Proof. apply is_valid_date_shape. Qed.

Lemma date_shape_length s :
  date_shape digit s → (4 ≤ length s ≤ 11)%nat.
Proof.
  intros (y & md & nl & -> & [Hy _] & Hmd & Hnl). rewrite !length_app.
  assert (length nl ≤ 1)%nat by (destruct Hnl as [->| ->]; simpl; lia).
  assert (length md ≤ 6)%nat; [|lia].
  destruct Hmd as [->|(m & dd & -> & [Hm _] & Hdd)]; [simpl; lia|].
  simpl. rewrite length_app.
  destruct Hdd as [->|(d & -> & [Hd _])]; simpl; lia.
Qed.

(** X14: a string [is_valid_date] accepts has between 4 and 11
    characters, and when it does not end with a newline the string with a
    newline appended is accepted too. *)
Theorem X14_valid_date_length_and_newline (s : list N) :
  is_valid_date digit s = true →
  (4 ≤ length s ≤ 11)%nat ∧
  (last s ≠ Some 10%N → is_valid_date digit (s ++ [10%N]) = true).
Proof.
  intros Hs%is_valid_date_shape. split; [by apply date_shape_length|].
  intros Hlast. apply is_valid_date_shape.
  destruct Hs as (y & md & nl & -> & Hy & Hmd & [->| ->]).
  - exists y, md, [10%N]. rewrite app_nil_r, <- app_assoc.
    do 3 (split; [done|]). by right.
  - destruct Hlast. by rewrite !app_assoc, last_snoc.
Qed.

(** X15: the date checks of [parse_arguments] let the program go on
    exactly when every date option that was given a non-empty value has
    the date shape; an option given the empty string passes unchecked, and
    the two dates are not compared with each other. *)
Theorem X15_date_arguments_checked (mindate maxdate : option (list N)) :
  dates_pass digit mindate maxdate = true ↔
  ∀ d, mindate = Some d ∨ maxdate = Some d → d ≠ [] → date_shape digit d.
Proof.
  unfold dates_pass. split.
  - intros H d [-> | ->] Hd; destruct d as [|x rest]; try done;
      apply is_valid_date_shape.
    + by destruct (is_valid_date digit (x :: rest)).
    + destruct mindate as [[|? ?]|];
        [..|by destruct (is_valid_date digit (x :: rest))];
        first [ by destruct (is_valid_date digit (x :: rest))
              | destruct (is_valid_date digit (n :: l)); [|done];
                by destruct (is_valid_date digit (x :: rest)) ].
  - intros H.
    assert (Hok : ∀ o, (o = mindate ∨ o = maxdate) →
      match o with
      | Some (x :: rest) => negb (is_valid_date digit (x :: rest))
      | _ => false
      end = false).
    { intros [[|x rest]|] Ho; [done| |done].
      apply negb_false_iff, is_valid_date_shape, H; [|done].
      destruct Ho as [<-|<-]; auto. }
    by rewrite (Hok mindate), (Hok maxdate) by auto.
Qed.

End Dates.

(** [is_valid_date] on ASCII text: year, year/month, year/month/day with
    one or two digits each, no range check, a final newline tolerated;
    two-digit years and dashes refused. *)
Example is_valid_date_samples :
  is_valid_date ascii_digit <$>
    [codes "2021"; codes "2021/6"; codes "2021/13/45"; codes "2021/06/15" ++ [10%N];
     codes "21/06/15"; codes "2021-06-15"; codes "2021/"; codes ""]
  = [true; true; true; true; false; false; false; false].
Proof. reflexivity. Qed.

(** X14 on the date 2021/06/15. *)
Lemma X14_witness_full_date :
  is_valid_date ascii_digit (codes "2021/06/15") = true ∧
  (4 ≤ length (codes "2021/06/15") ≤ 11)%nat ∧
  (last (codes "2021/06/15") ≠ Some 10%N →
   is_valid_date ascii_digit (codes "2021/06/15" ++ [10%N]) = true).
Proof.
  split; [reflexivity|].
  exact (X14_valid_date_length_and_newline ascii_digit (codes "2021/06/15") eq_refl).
Defined.

(** ** The keyword tables *)

Lemma elem_of_INDUSTRY k :
  k ∈ INDUSTRY_KEYWORDS →
  k = "pharmaceutical" ∨ k = "biotechnology" ∨
  k ∈ List.filter
        (λ k, negb (String.eqb k "pharmaceutical" || String.eqb k "biotechnology"))
        INDUSTRY_KEYWORDS.
Proof.
  intros Hk. unfold INDUSTRY_KEYWORDS in Hk. list_cases Hk; auto;
    right; right; apply (bool_decide_unpack _); vm_compute; exact I.
Qed.

(** X16: the entries "pharmaceutical" and "biotechnology" of the industry
    table never decide a classification: every text that contains one of
    them contains "pharma" or "biotech", so the industry scan gives the
    same answer without them. *)
Theorem X16_redundant_industry_keywords (s : string) :
  any_keyword_in INDUSTRY_KEYWORDS s =
  any_keyword_in
    (List.filter
       (λ k, negb (String.eqb k "pharmaceutical" || String.eqb k "biotechnology"))
       INDUSTRY_KEYWORDS) s.
Proof.
  apply Bool.eq_iff_eq_true. rewrite !any_keyword_in_occurs. split.
  - intros (k & Hk & Hs). apply elem_of_INDUSTRY in Hk as [->|[->|Hk]].
    + exists "pharma". split.
      * apply (bool_decide_unpack _). vm_compute. exact I.
      * by apply (str_in_trans _ "pharmaceutical").
    + exists "biotech". split.
      * apply (bool_decide_unpack _). vm_compute. exact I.
      * by apply (str_in_trans _ "biotechnology").
    + by exists k.
  - intros (k & [Hk _]%elem_of_bool_filter & Hs). by exists k.
Qed.
